(** * Usage reconciliation: overage, percentage-of-limit and cache sync

    A shallow embedding of [packages/api/src/controllers/usage.ts], in the
    revision that carries the calculators and the cache sync (the file is
    kept in an earlier, shorter revision too, whose [GET /] is the same and
    whose [POST /update] only reports usage).

    JavaScript numbers are IEEE-754 binary64 values, so they are embedded as
    Rocq's primitive [float]s; the arithmetic of the controller ([-], [/],
    [*], [Math.max], [||], [&&], [!==]) is written out with the semantics
    ECMAScript gives it, including [NaN], signed zeros and infinities. *)

From Stdlib Require Import ZArith Floats String Ascii List Bool Lia.
From stdpp Require Import base option list gmap strings.
From Stdlib Require Import Sorted.
Import ListNotations.

Local Open Scope string_scope.
Local Open Scope Z_scope.
Local Open Scope list_scope.

(** ** JavaScript values and operators used by the controller *)

Module JS.

(** The values a limit or a usage metric can hold: the property is missing
    ([undefined]) or it is a number. *)
Inductive value : Type :=
| VUndefined
| VNumber (x : float).

(** ECMAScript [ToNumber]. *)
Definition ToNumber (v : value) : float :=
  match v with
  | VUndefined => nan
  | VNumber x => x
  end.

(** ECMAScript [ToBoolean]: [undefined], [+0], [-0] and [NaN] are falsy. *)
Definition ToBoolean (v : value) : bool :=
  match v with
  | VUndefined => false
  | VNumber x => negb (is_zero x || is_nan x)
  end.

(** [a || b] *)
Definition or (a b : value) : value := if ToBoolean a then a else b.

(** [a !== n] for a number literal [n]: values of different types are
    never strictly equal; numbers are compared by IEEE equality. *)
Definition strict_neq_num (a : value) (n : float) : bool :=
  match a with
  | VUndefined => true
  | VNumber x => negb (x =? n)%float
  end.

(** [a - b] and [a / b] on arbitrary values: both sides go through
    [ToNumber]. *)
Definition sub (a b : value) : float := (ToNumber a - ToNumber b)%float.
Definition div (a b : value) : float := (ToNumber a / ToNumber b)%float.

(** One iteration of the loop of [Math.max] (ECMA-262, 21.3.2.24): a [NaN]
    argument makes the result [NaN]; [+0] is larger than [-0]; otherwise
    the larger number is kept. *)
Definition max_step (highest number : float) : float :=
  if is_nan highest || is_nan number then nan
  else
    match classify number, classify highest with
    | PZero, NZero => 0%float
    | _, _ => if (highest <? number)%float then number else highest
    end.

(** [Math.max(x, y)]: the loop starts from [-Infinity]. *)
Definition Math_max (x y : float) : float :=
  max_step (max_step neg_infinity x) y.

(** [c.toLowerCase()] on one ASCII character. *)
Definition lower_ascii (c : ascii) : ascii :=
  let n := nat_of_ascii c in
  if (Nat.leb 65 n && Nat.leb n 90)%bool then ascii_of_nat (n + 32) else c.

(** [s.toLowerCase()].  Characters outside ASCII are left as they are: no
    character outside ASCII lower-cases to a single letter among those of
    the three names the controller compares with, so the comparisons
    below are decided as in JavaScript. *)
Fixpoint toLowerCase (s : string) : string :=
  match s with
  | EmptyString => EmptyString
  | String c r => String (lower_ascii c) (toLowerCase r)
  end.

End JS.

Import JS.

(** ** Data *)

(** The three metrics of a usage aggregate, of an over-usage report and of a
    percentage report: the same three property names in each. *)
Record Metrics (A : Type) : Type := mkMetrics {
  TotalUsageMins : A;
  DeliveryUsageMins : A;
  StorageUsageMins : A
}.
Arguments mkMetrics {A} _ _ _.
Arguments TotalUsageMins {A} _.
Arguments DeliveryUsageMins {A} _.
Arguments StorageUsageMins {A} _.

(** The usage aggregate returned by the metering service. [None] is an
    absent ([undefined] or [null]) aggregate, the case [usage?.X] guards. *)
Definition Usage : Type := option (Metrics value).

(** [usage?.X] *)
Definition opt_field (f : Metrics value -> value) (usage : Usage) : value :=
  match usage with
  | None => VUndefined
  | Some u => f u
  end.

(** One line item of [product.usage]. *)
Record UsageItem : Type := mkItem {
  name : string;
  limit : value
}.

(** A product plan of [products]; [usage] may be missing. *)
Record Product : Type := mkProduct {
  usage : option (list UsageItem)
}.

(** The local [limits] object. *)
Record Limits : Type := mkLimits {
  transcoding : value;
  streaming : value;
  storage : value
}.

(** [let limits = {}] *)
Definition no_limits : Limits := mkLimits VUndefined VUndefined VUndefined.

(** The body of the [forEach] callback: three independent [if]s, each
    overwriting one property of [limits]. *)
Definition scan_item (limits : Limits) (item : UsageItem) : Limits :=
  let l1 :=
    if String.eqb (toLowerCase (name item)) "transcoding"
    then mkLimits (limit item) (streaming limits) (storage limits)
    else limits in
  let l2 :=
    if String.eqb (toLowerCase (name item)) "delivery"
    then mkLimits (transcoding l1) (limit item) (storage l1)
    else l1 in
  if String.eqb (toLowerCase (name item)) "storage"
  then mkLimits (transcoding l2) (streaming l2) (limit item)
  else l2.

(** [product.usage.forEach(...)] from a given [limits] object. *)
Definition scan_items (items : list UsageItem) (limits : Limits) : Limits :=
  fold_left scan_item items limits.

(** The limit resolution both calculators start with:
    [let limits = {}; if (product?.usage) { product.usage.forEach(...) }]. *)
Definition resolveLimits (product : option Product) : Limits :=
  match product with
  | None => no_limits
  | Some p =>
      match usage p with
      | None => no_limits
      | Some items => scan_items items no_limits
      end
  end.

(** [Math.max(usage?.X - (limit || 0), 0)] *)
Definition overage_of (u lim : value) : float :=
  Math_max (JS.sub u (JS.or lim (VNumber 0%float))) 0%float.

Definition calculateOverUsage (product : option Product) (usage : Usage)
  : Metrics float :=
  let limits := resolveLimits product in
  mkMetrics
    (overage_of (opt_field TotalUsageMins usage) (transcoding limits))
    (overage_of (opt_field DeliveryUsageMins usage) (streaming limits))
    (overage_of (opt_field StorageUsageMins usage) (storage limits)).

(** [limit && limit !== 0 ? Math.max((usage?.X / limit) * 100, 0) : 0] *)
Definition percentage_of (u lim : value) : float :=
  if (ToBoolean lim && strict_neq_num lim 0%float)%bool
  then Math_max (JS.div u lim * 100)%float 0%float
  else 0%float.

Definition getUsagePercentageOfLimit (product : option Product) (usage : Usage)
  : Metrics float :=
  let limits := resolveLimits product in
  mkMetrics
    (percentage_of (opt_field TotalUsageMins usage) (transcoding limits))
    (percentage_of (opt_field DeliveryUsageMins usage) (streaming limits))
    (percentage_of (opt_field StorageUsageMins usage) (storage limits)).

(** ** The HTTP handlers

    The handlers talk to collaborators that live outside this file: the
    database layer ([db]), the request store ([req.store]), the metering
    service reached through [fetch], the billing provider ([reportUsage]) and
    the clock.  What they answer is taken from an environment; what the
    handler asks of them, and what it writes to the response, is recorded in
    order in a trace. *)

(** A time bound as the handlers pass it on: a query-string value, a number
    of milliseconds since the epoch, or [undefined]. *)
Inductive timeArg : Type :=
| TUndefined
| TString (s : string)
| TNumber (t : Z).

(** [!a] *)
Definition falsy (a : timeArg) : bool :=
  match a with
  | TUndefined => true
  | TString s => String.eqb s ""
  | TNumber t => Z.eqb t 0
  end.

(** A property of [req.query]: missing, or the string the caller sent. *)
Definition query_arg (p : option string) : timeArg :=
  match p with
  | None => TUndefined
  | Some s => TString s
  end.

(** [p === lit] for a property of [req.query] and a string literal. *)
Definition strict_eq_str (p : option string) (lit : string) : bool :=
  match p with
  | None => false
  | Some s => String.eqb s lit
  end.

(** [req.query] *)
Record Query : Type := mkQuery {
  fromTime : option string;
  toTime : option string;
  newUsageReport : option string;
  userId : option string
}.

(** Modelled from the spec: the type of a usage row is declared outside
    this file; the spec's [UsagePeriodRecord] gives its shape, an [id]
    derived from the period, the period [date] and three usage figures. *)
Record UsageRow : Type := mkRow {
  id : string;
  date : Z;
  totalUsageMinutes : float;
  deliveryUsageMinutes : float;
  storageUsageMinutes : float
}.

(** The object the sync loop writes: [{ kind: "usage", ...row }]. *)
Record Doc : Type := mkDoc {
  kind : string;
  row : UsageRow
}.

(** The template literal [`usage/${row.id}`]. *)
Definition usage_key (r : UsageRow) : string := ("usage/" ++ id r)%string.

(** The options of [db.usage.find]. *)
Record FindOpts : Type := mkFindOpts {
  opt_limit : Z;
  opt_order : string;
  opt_useReplica : bool
}.

Section Controller.

(** What [reportUsage] resolves to; its shape is the billing
    provider's. *)
Variable Report : Type.

Inductive body : Type :=
| BReport (r : Report)
| BRows (rows : list UsageRow)
| BUsage (u : Usage)
| BError (msg : string).

Inductive event : Type :=
| EvReportUsage (token : string)
| EvFind (opts : FindOpts)
| EvUsageHistory (from to : timeArg) (useReplica : bool)
| EvCachedUsageHistory (from to : timeArg) (useReplica : bool)
| EvGetIngest
| EvFetchUsage (baseUrl : string) (from to : timeArg) (user : string)
               (adminToken : string)
| EvStoreGet (key : string)
| EvStoreReplace (d : Doc)
| EvStoreCreate (d : Doc)
| EvStatus (code : Z)
| EvJson (b : body).

(** The answers of the collaborators. *)
Record Env : Type := mkEnv {
  now : Z;                       (* [+new Date()] *)
  timezoneOffset : Z;            (* minutes west of UTC on 1 Jan 2020 *)
  db_usage_find : FindOpts -> list UsageRow;
  db_stream_usageHistory : timeArg -> timeArg -> bool -> list UsageRow;
  db_stream_cachedUsageHistory : timeArg -> timeArg -> bool -> list UsageRow;
  getIngest : list string;       (* the [origin] of each ingest *)
  metering : string -> timeArg -> timeArg -> string -> string -> Usage;
  reportUsage : string -> Report
}.

(** [+new Date(2020, 0)]: midnight of 1 January 2020 in local time. *)
Definition Date_2020_0 (env : Env) : Z :=
  1577836800000 + 60000 * timezoneOffset env.

(** [req] as far as the handlers read it. *)
Record Request : Type := mkRequest {
  query : Query;
  token : string
}.

(** The state the handlers act on: the cache behind [req.store] and the
    trace of calls and response writes so far. *)
Record State : Type := mkState {
  store : gmap string Doc;
  trace : list event
}.

(** A handler step either completes or throws. *)
Inductive outcome (A : Type) : Type :=
| Ok (a : A)
| Threw (e : string).
Arguments Ok {A} _.
Arguments Threw {A} _.

Definition M (A : Type) : Type := State -> outcome A * State.

Definition ret {A} (a : A) : M A := fun s => (Ok a, s).

Definition bind {A B} (m : M A) (k : A -> M B) : M B :=
  fun s =>
    match m s with
    | (Ok a, s') => k a s'
    | (Threw e, s') => (Threw e, s')
    end.

Definition throw {A} (e : string) : M A := fun s => (Threw e, s).

Definition emit (e : event) : M unit :=
  fun s => (Ok tt, mkState (store s) (trace s ++ [e])).

Notation "x <- m ;; k" := (bind m (fun x => k))
  (at level 100, m at next level, right associativity).
Notation "m ;; k" := (bind m (fun _ => k))
  (at level 100, right associativity).

(** [for (const x of xs) { await f(x) }] *)
Fixpoint for_of {A} (xs : list A) (f : A -> M unit) : M unit :=
  match xs with
  | [] => ret tt
  | x :: rest => f x ;; for_of rest f
  end.

(** Modelled from the spec: the store behind [req.store] is defined outside
    this file.  The spec keys its records by a stable string id per stored
    kind; the key of a record is [kind/id], the form the handler itself
    uses when it looks a row up. *)
Definition doc_key (d : Doc) : string := (kind d ++ "/" ++ id (row d))%string.

(** Modelled from the spec: [req.store.get] is defined outside this file;
    the spec's contract is [get(key) -> record|absent]. *)
Definition store_get (key : string) : M (option Doc) :=
  fun s => (Ok (store s !! key), mkState (store s) (trace s ++ [EvStoreGet key])).

(** Modelled from the spec: [req.store.replace] is defined outside this
    file; the spec's contract is [replace(record) -> void], the record
    given taking the place of the entry under its key. *)
Definition store_replace (d : Doc) : M unit :=
  fun s => (Ok tt, mkState (<[doc_key d := d]> (store s))
                           (trace s ++ [EvStoreReplace d])).

(** Modelled from the spec: [req.store.create] is defined outside this
    file; the spec's contract is [create(record) -> void], the record given
    becoming the entry under its key. *)
Definition store_create (d : Doc) : M unit :=
  fun s => (Ok tt, mkState (<[doc_key d := d]> (store s))
                           (trace s ++ [EvStoreCreate d])).

(** [res.status(c)] and [res.json(b)]: the call is recorded with its
    argument.  What the response object does with a second [res.json] on a
    response already sent is outside this file; the properties of
    [post_update] below are about the calls made and the cache, not about
    how such a call ends. *)
Definition res_status (c : Z) : M unit := emit (EvStatus c).
Definition res_json (b : body) : M unit := emit (EvJson b).

(** [getBillingUsage]: one authenticated GET on the metering endpoint with
    [from], [to] and [userId] as query parameters; the parsed body is
    returned as it is. *)
Definition getBillingUsage (env : Env) (user : string) (from to : timeArg)
    (baseUrl adminToken : string) : M Usage :=
  emit (EvFetchUsage baseUrl from to user adminToken) ;;
  ret (metering env baseUrl from to user adminToken).

(** The defaulting shared by the GET handlers:
    [if (!fromTime && !toTime) { fromTime = +new Date(2020, 0); toTime = +new Date(); }] *)
Definition default_window (env : Env) (from to : timeArg) : timeArg * timeArg :=
  if (falsy from && falsy to)%bool
  then (TNumber (Date_2020_0 env), TNumber (now env))
  else (from, to).

(** [app.get("/")] *)
Definition get_root (env : Env) (req : Request) : M unit :=
  let '(from, to) :=
    default_window env (query_arg (fromTime (query req)))
                       (query_arg (toTime (query req))) in
  emit (EvCachedUsageHistory from to true) ;;
  let cachedUsageHistory := db_stream_cachedUsageHistory env from to true in
  res_status 200 ;;
  res_json (BRows cachedUsageHistory).

(** [app.get("/user")] *)
Definition get_user (env : Env) (req : Request) : M unit :=
  let '(from, to) :=
    default_window env (query_arg (fromTime (query req)))
                       (query_arg (toTime (query req))) in
  if falsy (query_arg (userId (query req)))
  then
    res_status 400 ;;
    res_json (BError "userId is required")
  else
    emit EvGetIngest ;;
    match getIngest env with
    | [] => throw "TypeError: Cannot read properties of undefined (reading 'origin')"
    | origin :: _ =>
        usage <- getBillingUsage env (default "" (userId (query req)))
                   from to origin (token req) ;;
        res_status 200 ;;
        res_json (BUsage usage)
    end.

(** The body of the sync loop: look the row up by [usage/<id>], replace
    the entry when there is one, create it otherwise. *)
Definition upsert_row (row : UsageRow) : M unit :=
  dbRow <- store_get (usage_key row) ;;
  match dbRow with
  | Some _ => store_replace (mkDoc "usage" row)
  | None => store_create (mkDoc "usage" row)
  end.

(** [app.post("/update")] *)
Definition post_update (env : Env) (req : Request) : M unit :=
  let fromTime0 := query_arg (fromTime (query req)) in
  let toTime0 := query_arg (toTime (query req)) in
  (if strict_eq_str (newUsageReport (query req)) "true"
   then
     emit (EvReportUsage (token req)) ;;
     let newUsageResult := reportUsage env (token req) in
     res_status 200 ;;
     res_json (BReport newUsageResult)
   else ret tt) ;;
  from <- (if falsy fromTime0
           then
             let opts := mkFindOpts 1 "data->>'date' DESC" true in
             emit (EvFind opts) ;;
             match db_usage_find env opts with
             | r :: _ => ret (TNumber (date r))
             | [] => ret (TNumber (Date_2020_0 env))
             end
           else ret fromTime0) ;;
  to <- (if falsy toTime0 then ret (TNumber (now env)) else ret toTime0) ;;
  emit (EvUsageHistory from to true) ;;
  let usageHistory := db_stream_usageHistory env from to true in
  for_of usageHistory upsert_row ;;
  res_status 200 ;;
  res_json (BRows usageHistory).

End Controller.

Arguments BReport {Report}.
Arguments BRows {Report}.
Arguments BUsage {Report}.
Arguments BError {Report}.
Arguments EvReportUsage {Report}.
Arguments EvFind {Report}.
Arguments EvUsageHistory {Report}.
Arguments EvCachedUsageHistory {Report}.
Arguments EvGetIngest {Report}.
Arguments EvFetchUsage {Report}.
Arguments EvStoreGet {Report}.
Arguments EvStoreReplace {Report}.
Arguments EvStoreCreate {Report}.
Arguments EvStatus {Report}.
Arguments EvJson {Report}.
Arguments mkEnv {Report}.
Arguments now {Report}.
Arguments timezoneOffset {Report}.
Arguments db_usage_find {Report}.
Arguments db_stream_usageHistory {Report}.
Arguments db_stream_cachedUsageHistory {Report}.
Arguments getIngest {Report}.
Arguments metering {Report}.
Arguments reportUsage {Report}.
Arguments Date_2020_0 {Report}.
Arguments mkState {Report}.
Arguments store {Report}.
Arguments trace {Report}.
Arguments ret {Report A} _ _.
Arguments bind {Report A B} _ _ _.
Arguments throw {Report A} _ _.
Arguments emit {Report}.
Arguments for_of {Report A} _ _ _.
Arguments store_get {Report}.
Arguments store_replace {Report}.
Arguments store_create {Report}.
Arguments res_status {Report}.
Arguments res_json {Report}.
Arguments getBillingUsage {Report}.
Arguments default_window {Report}.
Arguments get_root {Report}.
Arguments get_user {Report}.
Arguments upsert_row {Report}.
Arguments post_update {Report}.
Arguments Ok {A} _.
Arguments Threw {A} _.

(** ** Definitions used to state the properties *)

Definition num (x : float) : value := VNumber x.

(** The plan and the usage aggregate of the end-to-end scenario. *)
Definition plan_example : option Product :=
  Some (mkProduct (Some [ mkItem "transcoding" (num 1000);
                          mkItem "delivery" (num 2000);
                          mkItem "storage" (num 500) ])).

Definition usage_example : Usage :=
  Some (mkMetrics (num 1200) (num 1500) (num 600)).

(** A plan whose names are spelled in mixed case, with a foreign line item
    and a repeated name. *)
Definition plan_mixed_case : option Product :=
  Some (mkProduct (Some [ mkItem "TRANSCODING" (num 1);
                          mkItem "Delivery" (num 2);
                          mkItem "sToRaGe" (num 3);
                          mkItem "bandwidth" (num 4);
                          mkItem "Transcoding" (num 5) ])).

(** [lim ?? d]: a limit defaulted to [d] when it is absent. *)
Definition nullish (lim : value) (d : float) : float :=
  match lim with
  | VUndefined => d
  | VNumber l => l
  end.

(** The limit of the last line item whose lower-cased name is [key]. *)
Definition last_match (key : string) (items : list UsageItem) : option value :=
  match find (fun i => String.eqb (toLowerCase (name i)) key) (rev items) with
  | Some i => Some (limit i)
  | None => None
  end.

(** A line item whose name is none of the three recognized names. *)
Definition unrecognized (item : UsageItem) : Prop :=
  toLowerCase (name item) <> "transcoding" /\
  toLowerCase (name item) <> "delivery" /\
  toLowerCase (name item) <> "storage".

(** What the percentage of one metric is, given its limit [lim], its usage
    value [u] and the reported figure [r]. *)
Definition percentage_guard (lim u : value) (r : float) : Prop :=
  (lim = VUndefined -> r = 0%float) /\
  (forall l, lim = VNumber l -> (l =? 0)%float = true -> r = 0%float) /\
  (forall l, lim = VNumber l -> is_nan l = true -> r = 0%float) /\
  (forall l, lim = VNumber l -> is_nan l = false -> (l =? 0)%float = false ->
     r = Math_max (ToNumber u / l * 100)%float 0%float).

(** A metric value that is a number at least [0]. *)
Definition at_least_zero (v : value) : Prop :=
  match v with
  | VUndefined => False
  | VNumber x => (0 <=? x)%float = true
  end.

(** A usage value and its limit that are both [+Infinity]. *)
Definition both_infinite (u lim : value) : Prop :=
  u = VNumber infinity /\ lim = VNumber infinity.

(** A limit that, when present, is at least [0]. *)
Definition nonneg_limit (lim : value) : Prop :=
  match lim with
  | VUndefined => True
  | VNumber l => (0 <=? l)%float = true
  end.

(** ** A functional account of the sync handler

    The effects of [post_update], written as functions of the environment,
    the request and the cache the handler starts from; the handler is proved
    to produce exactly these. *)

Section SyncAccount.

Variable Report : Type.

Abbreviation Env := (Env Report).
Abbreviation event := (event Report).

(** The options of the watermark query. *)
Definition watermark_opts : FindOpts :=
  mkFindOpts 1 "data->>'date' DESC" true.

(** The lower bound of the window the handler fetches. *)
Definition resolved_from (env : Env) (req : Request) : timeArg :=
  if falsy (query_arg (fromTime (query req)))
  then match db_usage_find env watermark_opts with
       | r :: _ => TNumber (date r)
       | [] => TNumber (Date_2020_0 env)
       end
  else query_arg (fromTime (query req)).

(** Its upper bound. *)
Definition resolved_to (env : Env) (req : Request) : timeArg :=
  if falsy (query_arg (toTime (query req)))
  then TNumber (now env)
  else query_arg (toTime (query req)).

(** The period records the handler fetches for that window. *)
Definition fetched (env : Env) (req : Request) : list UsageRow :=
  db_stream_usageHistory env (resolved_from env req) (resolved_to env req) true.

(** The cache after the loop went over [rows]. *)
Definition upserted (rows : list UsageRow) (st : gmap string Doc)
  : gmap string Doc :=
  fold_left (fun st r => <[usage_key r := mkDoc "usage" r]> st) rows st.

(** The store calls of the loop over [rows], from cache [st]. *)
Fixpoint upsert_events (rows : list UsageRow) (st : gmap string Doc)
  : list event :=
  match rows with
  | [] => []
  | r :: rest =>
      EvStoreGet (usage_key r)
      :: (match st !! (usage_key r) with
          | Some _ => EvStoreReplace (mkDoc "usage" r)
          | None => EvStoreCreate (mkDoc "usage" r)
          end)
      :: upsert_events rest (<[usage_key r := mkDoc "usage" r]> st)
  end.

(** The events of the billing report, when it is asked for. *)
Definition report_events (env : Env) (req : Request) : list event :=
  if strict_eq_str (newUsageReport (query req)) "true"
  then [EvReportUsage (token req); EvStatus 200;
        EvJson (BReport (reportUsage env (token req)))]
  else [].

(** The events of the sync proper: watermark query when no lower bound
    was given, the fetch, the store calls, the response. *)
Definition sync_events (env : Env) (req : Request) (st : gmap string Doc)
  : list event :=
  (if falsy (query_arg (fromTime (query req)))
   then [EvFind watermark_opts] else [])
  ++ [EvUsageHistory (resolved_from env req) (resolved_to env req) true]
  ++ upsert_events (fetched env req) st
  ++ [EvStatus 200; EvJson (BRows (fetched env req))].

(** *** Reading a trace *)

(** The windows asked of [db.stream.usageHistory]. *)
Definition fetch_calls (tr : list event) : list (timeArg * timeArg * bool) :=
  omap (fun e => match e with
                 | EvUsageHistory f t r => Some (f, t, r)
                 | _ => None
                 end) tr.

(** The windows asked of [db.stream.cachedUsageHistory]. *)
Definition cached_calls (tr : list event) : list (timeArg * timeArg * bool) :=
  omap (fun e => match e with
                 | EvCachedUsageHistory f t r => Some (f, t, r)
                 | _ => None
                 end) tr.

(** The windows asked of the metering service. *)
Definition metering_calls (tr : list event) : list (timeArg * timeArg) :=
  omap (fun e => match e with
                 | EvFetchUsage _ f t _ _ => Some (f, t)
                 | _ => None
                 end) tr.

(** The options of the [db.usage.find] queries. *)
Definition find_calls (tr : list event) : list FindOpts :=
  omap (fun e => match e with
                 | EvFind o => Some o
                 | _ => None
                 end) tr.

(** The documents written to the store, by [replace] or [create]. *)
Definition writes (tr : list event) : list Doc :=
  omap (fun e => match e with
                 | EvStoreReplace d | EvStoreCreate d => Some d
                 | _ => None
                 end) tr.

(** The bodies handed to [res.json]. *)
Definition responses (tr : list event) : list (body Report) :=
  omap (fun e => match e with
                 | EvJson b => Some b
                 | _ => None
                 end) tr.

(** A request with the given query parameters. *)
Definition request (from to report user : option string) : Request :=
  mkRequest (mkQuery from to report user) "admin-token".

End SyncAccount.

Arguments resolved_from {Report}.
Arguments resolved_to {Report}.
Arguments fetched {Report}.
Arguments upsert_events {Report}.
Arguments report_events {Report}.
Arguments sync_events {Report}.
Arguments fetch_calls {Report}.
Arguments cached_calls {Report}.
Arguments metering_calls {Report}.
Arguments find_calls {Report}.
Arguments writes {Report}.
Arguments responses {Report}.

(** ** A concrete world *)

(** Two days of usage; [row_a_late] is a later reading of the first day. *)
Definition row_a : UsageRow := mkRow "2024-01-01" 1704067200000 10 20 30.
Definition row_b : UsageRow := mkRow "2024-01-02" 1704153600000 11 21 31.
Definition row_a_late : UsageRow := mkRow "2024-01-01" 1704067200000 12 22 32.

(** A world whose cache already knows [row_b] and whose metering history
    holds the three readings, whatever the window. *)
Definition env_example : Env unit :=
  mkEnv 1706745600000 0
        (fun _ => [row_b])
        (fun _ _ _ => [row_a; row_b; row_a_late])
        (fun _ _ _ => [row_a])
        ["https://origin.example"]
        (fun _ _ _ _ _ => usage_example)
        (fun _ => tt).

(** The same world later on, with nothing cached behind the replica. *)
Definition env_later : Env unit :=
  mkEnv 1706832000000 0
        (fun _ => [])
        (fun _ _ _ => [row_a; row_b; row_a_late])
        (fun _ _ _ => [])
        ["https://origin.example"]
        (fun _ _ _ _ _ => None)
        (fun _ => tt).

(** A world whose metering history holds one reading per day. *)
Definition env_distinct : Env unit :=
  mkEnv 1706745600000 0
        (fun _ => [])
        (fun _ _ _ => [row_a; row_b])
        (fun _ _ _ => [])
        ["https://origin.example"]
        (fun _ _ _ _ _ => usage_example)
        (fun _ => tt).

(** A world without ingest. *)
Definition env_no_ingest : Env unit :=
  mkEnv 1706745600000 0
        (fun _ => [])
        (fun _ _ _ => [])
        (fun _ _ _ => [])
        []
        (fun _ _ _ _ _ => usage_example)
        (fun _ => tt).

(** A state with an empty cache and nothing traced. *)
Definition state_empty : State unit := mkState ∅ [].

(** ** The remaining functions of the controller *)

(** A user as the controller reads it: [user.id] and
    [user.stripeProductId], which may be missing. *)
Record User : Type := mkUser {
  user_id : string;
  stripeProductId : option string
}.

(** [products[user.stripeProductId]]: a property read on the [products]
    table of the configuration; a missing product id reads the property
    named ["undefined"]. *)
Definition product_of (products : gmap string Product) (user : User)
  : option Product :=
  products !! default "undefined" (stripeProductId user).

(** What [getUsageData] returns. *)
Record UsageData : Type := mkUsageData {
  billingUsage : Usage;
  overUsage : Metrics float;
  usagePercentages : Metrics float
}.

Section BillingCycle.

Context {Report : Type}.

Notation "x <- m ;; k" := (bind m (fun x => k))
  (at level 100, m at next level, right associativity).

(** [getUsageData]: the arguments of [getBillingUsage] are evaluated first,
    [ingests[0].origin] among them, then the usage is fetched and the two
    reports are computed on it. *)
Definition getUsageData (env : Env Report) (products : gmap string Product)
    (user : User) (billingCycleStart billingCycleEnd : Z)
    (ingests : list string) (adminToken : string) : M Report UsageData :=
  match ingests with
  | [] => throw "TypeError: Cannot read properties of undefined (reading 'origin')"
  | origin :: _ =>
      billingUsage <- getBillingUsage env (user_id user)
                        (TNumber billingCycleStart) (TNumber billingCycleEnd)
                        origin adminToken ;;
      let overUsage := calculateOverUsage (product_of products user) billingUsage in
      let usagePercentages :=
        getUsagePercentageOfLimit (product_of products user) billingUsage in
      ret (mkUsageData billingUsage overUsage usagePercentages)
  end.

End BillingCycle.

(** What [GET /user/overage] asks of its collaborators and writes to the
    response, in order. *)
Inductive overage_event : Type :=
| OvUserGet (userId : string)
| OvGetIngest
| OvFetchUsage (baseUrl : string) (from to : timeArg) (user : string)
               (adminToken : string)
| OvStatus (code : Z)
| OvJsonError (msg : string)
| OvJson (overage usagePercentages : Metrics float).

(** The calls to the metering service in a trace of [GET /user/overage]. *)
Definition ov_fetches (tr : list overage_event) : list overage_event :=
  List.filter (fun e => match e with
                        | OvFetchUsage _ _ _ _ _ => true
                        | _ => false
                        end) tr.

(** What such a trace writes to the response. *)
Definition ov_written (tr : list overage_event) : list overage_event :=
  List.filter (fun e => match e with
                        | OvStatus _ | OvJsonError _ | OvJson _ _ => true
                        | _ => false
                        end) tr.

Section Overage.

Context {Report : Type}.

(** [app.get("/user/overage")]: the outcome of the handler and its trace.
    [db_user_get] answers [db.user.get].  [res.json] is called with the two
    reports as its two arguments; what the response object makes of such a
    call, and whether the call returns or throws, is not the controller's:
    [json_call] answers it, and the handler ends as that call ends. *)
Definition get_user_overage (env : Env Report)
    (db_user_get : string -> option User) (products : gmap string Product)
    (json_call : Metrics float -> Metrics float -> outcome unit)
    (req : Request) : outcome unit * list overage_event :=
  let '(from, to) :=
    default_window env (query_arg (fromTime (query req)))
                       (query_arg (toTime (query req))) in
  if falsy (query_arg (userId (query req)))
  then (Ok tt, [OvStatus 400; OvJsonError "userId is required"])
  else
    let uid := default "" (userId (query req)) in
    match db_user_get uid with
    | None =>
        (Threw ("user not found: " ++ uid)%string, [OvUserGet uid])
    | Some user =>
        match getIngest env with
        | [] =>
            (Threw "TypeError: Cannot read properties of undefined (reading 'origin')",
             [OvUserGet uid; OvGetIngest])
        | origin :: _ =>
            let usage := metering env origin from to uid (token req) in
            let overage := calculateOverUsage (product_of products user) usage in
            let usagePercentages :=
              getUsagePercentageOfLimit (product_of products user) usage in
            (json_call overage usagePercentages,
             [OvUserGet uid; OvGetIngest;
              OvFetchUsage origin from to uid (token req);
              OvStatus 200; OvJson overage usagePercentages])
        end
    end.

(** *** Replaying the store calls of a trace *)

(** Whether every [replace] of a trace meets an entry under its key and
    every [create] meets none, when the store calls are replayed from the
    cache [st]. *)
Fixpoint guarded (st : gmap string Doc) (tr : list (event Report)) : bool :=
  match tr with
  | [] => true
  | EvStoreReplace d :: rest =>
      bool_decide (is_Some (st !! doc_key d))
      && guarded (<[doc_key d := d]> st) rest
  | EvStoreCreate d :: rest =>
      bool_decide (st !! doc_key d = None)
      && guarded (<[doc_key d := d]> st) rest
  | _ :: rest => guarded st rest
  end.

(** The documents written by [create]. *)
Definition creates (tr : list (event Report)) : list Doc :=
  omap (fun e => match e with
                 | EvStoreCreate d => Some d
                 | _ => None
                 end) tr.

(** The keys looked up by [get]. *)
Definition gets (tr : list (event Report)) : list string :=
  omap (fun e => match e with
                 | EvStoreGet k => Some k
                 | _ => None
                 end) tr.

End Overage.

(** A finite number. *)
Definition finite_number (v : value) : Prop :=
  match v with
  | VUndefined => False
  | VNumber x => is_finite x = true
  end.

(** A number equal to zero, [+0] or [-0]. *)
Definition zero_number (v : value) : Prop :=
  match v with
  | VUndefined => False
  | VNumber x => (x =? 0)%float = true
  end.

(** A world with users and plans. *)
Definition products_example : gmap string Product :=
  {[ "prod_pro" := mkProduct (Some [ mkItem "transcoding" (num 1000);
                                     mkItem "delivery" (num 2000);
                                     mkItem "storage" (num 500) ]) ]}.

Definition users_example (uid : string) : option User :=
  if String.eqb uid "user-1" then Some (mkUser "user-1" (Some "prod_pro"))
  else if String.eqb uid "user-2" then Some (mkUser "user-2" None)
  else None.

(** * The blog index page

    A shallow embedding of the component of [packages/www/pages/blog/index.tsx]
    as far as it computes: the choice of the featured post, the order of the
    grid, the metadata of the page.  The markup is left out. *)

(** A post as the page reads it.  [publishedDate] stands for
    [new Date(p.publishedDate).getTime()], the time of a valid date in
    milliseconds; [featured] for the truth of [p.featured]. *)
Record Post : Type := mkPost {
  post_id : string;
  publishedDate : Z;
  featured : bool
}.

(** A category as the page reads it. *)
Record Category : Type := mkCategory {
  slug_current : string;
  metaTitle : string;
  metaDescription : string;
  metaUrl : string
}.

(** The metadata handed to the layout. *)
Record Meta : Type := mkMeta {
  title : string;
  description : string;
  url : string
}.

(** [useRouter()] as far as the page reads it. *)
Record Router : Type := mkRouter {
  isFallback : bool;
  slug : option string;
  asPath : string
}.

(** One card of the grid: the post, and whether its [display] is the
    responsive [["block", null, "none"]] rather than [undefined]. *)
Record Card : Type := mkCard {
  card_post : Post;
  card_responsive : bool
}.

(** What the component returns. *)
Inductive View : Type :=
| Loading
| Page (seoData : option Meta) (cards : list Card).

Section ArraySort.

Context {A : Type}.
Variable comparefn : A -> A -> Z.

(** [x] put in its place in a sorted array: before the first element it
    does not have to come after. *)
Fixpoint sort_insert (x : A) (l : list A) : list A :=
  match l with
  | [] => [x]
  | y :: rest =>
      if comparefn x y <=? 0 then x :: y :: rest
      else y :: sort_insert x rest
  end.

(** [Array.prototype.sort(comparefn)] for a consistent comparison function:
    the sort is stable (ECMA-262, 23.1.3.30), so its result is the one of
    an insertion sort that keeps elements comparing equal in their
    order. *)
Fixpoint Array_sort (l : list A) : list A :=
  match l with
  | [] => []
  | x :: rest => sort_insert x (Array_sort rest)
  end.

End ArraySort.

(** [(x, y) => new Date(y.publishedDate).getTime() - new Date(x.publishedDate).getTime()] *)
Definition by_date_desc (x y : Post) : Z := publishedDate y - publishedDate x.

(** [posts.sort(...)]: the array the rest of the component sees. *)
Definition sorted_posts (posts : list Post) : list Post :=
  Array_sort by_date_desc posts.

(** [let featuredPost = posts.sort(...).find((p) => p.featured);
     if (!featuredPost) featuredPost = posts[0]] *)
Definition featuredPost (posts : list Post) : option Post :=
  match find featured (sorted_posts posts) with
  | Some p => Some p
  | None => hd_error (sorted_posts posts)
  end.

(** [categories.filter(...).map(...)?.[0]], or the metadata of the blog on
    the path ["/blog"]. *)
Definition seoData (metaData : Meta) (router : Router)
    (categories : list Category) : option Meta :=
  if String.eqb (asPath router) "/blog" then Some metaData
  else
    hd_error
      (map (fun category => mkMeta (metaTitle category)
                                   (metaDescription category)
                                   (metaUrl category))
           (List.filter (fun category =>
                           strict_eq_str (slug router) (slug_current category))
                        categories)).

(** [posts.map((p, i) => <BlogPostCard ... />)]: reading
    [featuredPost._id] throws when [featuredPost] is [undefined]. *)
Fixpoint grid (featuredPost : option Post) (posts : list Post)
  : outcome (list Card) :=
  match posts with
  | [] => Ok []
  | p :: rest =>
      match featuredPost with
      | None => Threw "TypeError: Cannot read properties of undefined (reading '_id')"
      | Some f =>
          match grid featuredPost rest with
          | Ok cards =>
              Ok (mkCard p (String.eqb (post_id p) (post_id f)) :: cards)
          | Threw e => Threw e
          end
      end
  end.

(** [BlogIndex] *)
Definition BlogIndex (metaData : Meta) (router : Router)
    (categories : list Category) (posts : list Post) : outcome View :=
  if isFallback router then Ok Loading
  else
    let chosen := featuredPost posts in
    let seo := seoData metaData router categories in
    match grid chosen (sorted_posts posts) with
    | Ok cards => Ok (Page seo cards)
    | Threw e => Threw e
    end.

(** The latest of the posts that [keep] retains, found in one pass from
    the end of the array; of two posts of the same date the one that comes
    first in the array is kept. *)
Fixpoint latest (keep : Post -> bool) (posts : list Post) : option Post :=
  match posts with
  | [] => None
  | x :: rest =>
      if keep x then
        match latest keep rest with
        | Some q => if publishedDate q <=? publishedDate x then Some x
                    else Some q
        | None => Some x
        end
      else latest keep rest
  end.

(** Posts in descending order of date. *)
Definition newest_first (l : list Post) : Prop :=
  StronglySorted (fun a b => publishedDate b <= publishedDate a) l.

(** Three posts, the oldest of them featured. *)
Definition posts_example : list Post :=
  [ mkPost "p-jan" 1704067200000 true;
    mkPost "p-mar" 1709251200000 false;
    mkPost "p-feb" 1706745600000 false ].

(** * The test player page

    A shallow embedding of the [Debugger] component of
    [packages/www/pages/app/test-player.tsx] as far as it computes: the
    pattern a playback URL is tested against, the playback id taken from
    it, and the state the two handlers leave.  A call of [handleChange] is
    followed to the end of the lookup it starts before the next one is
    considered. *)

(** ** Regular expressions *)

(** The fragment of regular expressions the pattern is written in.  A
    character is matched by a class, given as its membership test. *)
Inductive regex : Type :=
| REmpty
| REps
| RChar (cls : ascii -> bool)
| RSeq (a b : regex)
| RAlt (a b : regex)
| RStar (a : regex).

Fixpoint nullable (r : regex) : bool :=
  match r with
  | REmpty => false
  | REps => true
  | RChar _ => false
  | RSeq a b => nullable a && nullable b
  | RAlt a b => nullable a || nullable b
  | RStar _ => true
  end.

(** What is left of [r] to match once [c] has been read. *)
Fixpoint deriv (c : ascii) (r : regex) : regex :=
  match r with
  | REmpty => REmpty
  | REps => REmpty
  | RChar cls => if cls c then REps else REmpty
  | RSeq a b =>
      if nullable a then RAlt (RSeq (deriv c a) b) (deriv c b)
      else RSeq (deriv c a) b
  | RAlt a b => RAlt (deriv c a) (deriv c b)
  | RStar a => RSeq (deriv c a) (RStar a)
  end.

(** [new RegExp("^" + r + "$").test(s)]: the whole of [s] is in the
    language of [r]. *)
Fixpoint matches (r : regex) (s : string) : bool :=
  match s with
  | EmptyString => nullable r
  | String c t => matches (deriv c r) t
  end.

(** [r?], [r+], and a sequence of expressions. *)
Definition ROpt (r : regex) : regex := RAlt REps r.
Definition RPlus (r : regex) : regex := RSeq r (RStar r).
Definition RSeqs (rs : list regex) : regex := fold_right RSeq REps rs.

(** The character classes of the pattern, under the flag [i]. *)
Definition is_digit (c : ascii) : bool :=
  let n := nat_of_ascii c in (Nat.leb 48 n && Nat.leb n 57)%bool.

Definition is_alpha (c : ascii) : bool :=
  let n := nat_of_ascii (lower_ascii c) in (Nat.leb 97 n && Nat.leb n 122)%bool.

Definition one_of (chars : string) (c : ascii) : bool :=
  existsb (Ascii.eqb c) (list_ascii_of_string chars).

(** A literal character; letters match in either case. *)
Definition lit (x : ascii) : regex :=
  RChar (fun c => Ascii.eqb (lower_ascii c) x).

(** [[a-z\d]] *)
Definition cls_alnum (c : ascii) : bool := (is_alpha c || is_digit c)%bool.
(** [[a-z\d-]] *)
Definition cls_alnum_dash (c : ascii) : bool :=
  (is_alpha c || is_digit c || one_of "-" c)%bool.
(** [[-a-z\d%_.~+]] *)
Definition cls_path (c : ascii) : bool :=
  (is_alpha c || is_digit c || one_of "-%_.~+" c)%bool.
(** [[;&a-z\d%_.~+=-]] *)
Definition cls_query (c : ascii) : bool :=
  (is_alpha c || is_digit c || one_of ";&%_.~+=-" c)%bool.
(** [[-a-z\d_]] *)
Definition cls_fragment (c : ascii) : bool :=
  (is_alpha c || is_digit c || one_of "-_" c)%bool.

(** [\d{1,3}] *)
Definition digits_1_3 : regex :=
  RSeq (RChar is_digit) (ROpt (RSeq (RChar is_digit) (ROpt (RChar is_digit)))).

(** The pattern of [handleChange], part by part as the source builds it. *)
Definition url_pattern : regex :=
  RSeqs
    [ (* protocol: optional http or https, then a colon and two slashes *)
      ROpt (RSeqs [lit "h"; lit "t"; lit "t"; lit "p"; ROpt (lit "s");
                   lit ":"; lit "/"; lit "/"]);
      (* domain name: one or more dotted labels, then two letters or more;
         OR ip (v4) address: four groups of one to three digits *)
      RAlt
        (RSeqs [ RPlus (RSeqs [ RChar cls_alnum;
                                RStar (RSeq (RStar (RChar cls_alnum_dash))
                                            (RChar cls_alnum));
                                lit "." ]);
                 RChar is_alpha; RChar is_alpha; RStar (RChar is_alpha) ])
        (RSeqs [ digits_1_3; lit "."; digits_1_3; lit ".";
                 digits_1_3; lit "."; digits_1_3 ]);
      (* port and path *)
      ROpt (RSeq (lit ":") (RPlus (RChar is_digit)));
      RStar (RSeq (lit "/") (RStar (RChar cls_path)));
      (* query string *)
      ROpt (RSeq (lit "?") (RStar (RChar cls_query)));
      (* fragment *)
      ROpt (RSeq (lit "#") (RStar (RChar cls_fragment))) ].

(** [pattern.test(value)] *)
Definition pattern_test (value : string) : bool := matches url_pattern value.

(** The characters a value that passes the test can be made of. *)
Definition url_char (c : ascii) : bool :=
  (is_alpha c || is_digit c || one_of ":/.-%_~+?;&=#" c)%bool.

(** Whether every class of [r] is within [P]. *)
Fixpoint classes_within (P : ascii -> bool) (r : regex) : Prop :=
  match r with
  | REmpty | REps => True
  | RChar cls => forall c, cls c = true -> P c = true
  | RSeq a b | RAlt a b => classes_within P a /\ classes_within P b
  | RStar a => classes_within P a
  end.

(** An expression that matches nothing, by its shape. *)
Fixpoint dead (r : regex) : bool :=
  match r with
  | REmpty => true
  | REps | RChar _ | RStar _ => false
  | RSeq a b => dead a || dead b
  | RAlt a b => dead a && dead b
  end.

(** ** The playback id *)

(** [s.split(sep)] for a separator of one character. *)
Fixpoint split_on (sep : ascii) (s : string) : list string :=
  match s with
  | EmptyString => [EmptyString]
  | String c rest =>
      if Ascii.eqb c sep then EmptyString :: split_on sep rest
      else match split_on sep rest with
           | seg :: segs => String c seg :: segs
           | [] => [String c EmptyString]
           end
  end.

(** [id.split("/")[4]], [undefined] when there is no such segment. *)
Definition playbackId (id : string) : option string :=
  nth_error (split_on "/" id) 4.

(** A string without [/]. *)
Definition slash_free (s : string) : Prop :=
  Forall (fun c => c <> "/"%char) (list_ascii_of_string s).

(** The number of [/] in a string. *)
Fixpoint slashes (s : string) : nat :=
  match s with
  | EmptyString => 0
  | String c rest => (if Ascii.eqb c "/" then 1 else 0) + slashes rest
  end.

(** ** The state of the component *)

(** What [getStreamInfo] answers, as far as the component reads it. *)
Record RInfo : Type := mkRInfo {
  isSession : option bool;
  stream : option string;
  session : option string
}.

(** The state hooks of the component. *)
Record PlayerState : Type := mkPlayerState {
  message : string;
  manifestUrl : string;
  loading : bool;
  info : option RInfo
}.

(** [useState] gives these to the first render. *)
Definition player_init : PlayerState := mkPlayerState "" "" false None.

Section Player.

(** The second component of what [getStreamInfo(playbackId)] resolves
    to. *)
Variable getStreamInfo : option string -> option RInfo.

(** [doGetInfo] *)
Definition doGetInfo (id : string) (st : PlayerState) : PlayerState :=
  let st := mkPlayerState (message st) (manifestUrl st) true None in
  let rinfo := getStreamInfo (playbackId id) in
  let st :=
    match rinfo with
    | None => mkPlayerState "Not found" (manifestUrl st) (loading st) (info st)
    | Some r =>
        match isSession r with
        | None =>
            mkPlayerState "Not found" (manifestUrl st) (loading st) (info st)
        | Some _ =>
            match stream r with
            | Some _ => mkPlayerState "" (manifestUrl st) (loading st) (Some r)
            | None => st
            end
        end
    end in
  mkPlayerState (message st) (manifestUrl st) false (info st).

(** [handleChange] *)
Definition handleChange (value : string) (st : PlayerState) : PlayerState :=
  if pattern_test value
  then doGetInfo value
         (mkPlayerState (message st) value (loading st) (info st))
  else mkPlayerState "" "" (loading st) None.

(** The component after the input took the given values in turn. *)
Definition after_changes (values : list string) (st : PlayerState)
  : PlayerState :=
  fold_left (fun st value => handleChange value st) values st.

(** Whether the page shows "Stream not found." and whether it shows the
    check mark. *)
Definition shows_not_found (st : PlayerState) : bool :=
  String.eqb (message st) "Not found".

Definition shows_checked (st : PlayerState) : bool :=
  (negb (String.eqb (message st) "Not found")
   && match info st with Some _ => true | None => false end)%bool.

(** What holds of the state between two changes of the input. *)
Definition player_inv (st : PlayerState) : Prop :=
  loading st = false /\
  (message st = "" \/ message st = "Not found") /\
  (manifestUrl st = "" \/ pattern_test (manifestUrl st) = true) /\
  (forall r, info st = Some r ->
     is_Some (isSession r) /\ is_Some (stream r) /\
     getStreamInfo (playbackId (manifestUrl st)) = Some r /\
     message st = "" /\ manifestUrl st <> "").

End Player.

(** A stream service that knows one playback id. *)
Definition stream_service (playback : option string) : option RInfo :=
  match playback with
  | Some pid =>
      if String.eqb pid "123456abcdef7890"
      then Some (mkRInfo (Some true) (Some "stream") (Some "profiles"))
      else None
  | None => None
  end.

(** * Facts about binary64 arithmetic

    The primitive operations are related to their specification on
    [spec_float] by the library; the lemmas below are derived from that
    specification. *)

Module SpecFacts.

Section Rounding.
Variables prec emax : Z.

Lemma shr_1_nonneg (mrs : shr_record) :
  0 <= shr_m mrs -> 0 <= shr_m (shr_1 mrs).
Proof.
  destruct mrs as [m r s]; simpl.
  destruct m as [|p|p]; [simpl; lia| |lia].
  intros _. destruct p; simpl; lia.
Qed.

Lemma iter_shr_1_nonneg (p : positive) :
  forall mrs, 0 <= shr_m mrs -> 0 <= shr_m (SpecFloat.iter_pos shr_1 p mrs).
Proof.
  induction p as [p IH|p IH|]; intros mrs H; simpl.
  - apply IH, IH, shr_1_nonneg, H.
  - apply IH, IH, H.
  - apply shr_1_nonneg, H.
Qed.

Lemma shr_fexp_nonneg (m e : Z) (l : location) :
  0 <= m -> 0 <= shr_m (fst (shr_fexp prec emax m e l)).
Proof.
  intros H. unfold shr_fexp, shr.
  assert (H0 : 0 <= shr_m (shr_record_of_loc m l))
    by (destruct l as [|[| |]]; exact H).
  destruct (fexp prec emax (Zdigits2 m + e) - e); simpl; auto.
  apply iter_shr_1_nonneg, H0.
Qed.

Lemma round_nearest_even_nonneg (m : Z) (l : location) :
  0 <= m -> 0 <= round_nearest_even m l.
Proof.
  intros H. destruct l as [|[| |]]; simpl; try lia.
  destruct (Z.even m); lia.
Qed.

Lemma binary_round_aux_not_nan (sx : bool) (mx ex : Z) (lx : location) :
  0 <= mx -> binary_round_aux prec emax sx mx ex lx <> S754_nan.
Proof.
  intros H. unfold binary_round_aux.
  pose proof (shr_fexp_nonneg mx ex lx H) as H1.
  destruct (shr_fexp prec emax mx ex lx) as [mrs' e']. simpl in H1.
  pose proof (shr_fexp_nonneg _ e' loc_Exact
                (round_nearest_even_nonneg _ (loc_of_shr_record mrs') H1)) as H2.
  destruct (shr_fexp prec emax _ e' loc_Exact) as [mrs'' e'']. simpl in H2.
  destruct (shr_m mrs'') as [|p|p]; [discriminate| |lia].
  destruct (e'' <=? emax - prec); discriminate.
Qed.

Lemma binary_normalize_not_nan (m e : Z) (szero : bool) :
  binary_normalize prec emax m e szero <> S754_nan.
Proof.
  unfold binary_normalize, binary_round.
  destruct m as [|p|p]; [discriminate| |];
    destruct (shl_align _ _ _) as [mz ez];
    apply binary_round_aux_not_nan; lia.
Qed.

(** A number that is neither [NaN] nor an infinity. *)
Definition SFfinite (x : spec_float) : bool :=
  match x with
  | S754_zero _ | S754_finite _ _ _ => true
  | _ => false
  end.

Lemma SFsub_finite_not_nan (x y : spec_float) :
  SFfinite x = true -> x <> S754_nan -> y <> S754_nan ->
  SFsub prec emax x y <> S754_nan.
Proof.
  intros Hx _ Hy.
  destruct x as [sx|sx| |sx mx ex]; try discriminate Hx;
    destruct y as [sy|sy| |sy my ey]; try congruence; simpl;
    try discriminate.
  - destruct sx, sy; discriminate.
  - apply binary_normalize_not_nan.
Qed.

End Rounding.

Lemma SFcompare_refl (x : spec_float) :
  x <> S754_nan -> SFcompare x x = Some Eq.
Proof.
  destruct x as [s|s| |s m e]; simpl; try congruence; intros _.
  - destruct s; reflexivity.
  - rewrite Z.compare_refl, Pos.compare_cont_refl. destruct s; reflexivity.
Qed.

End SpecFacts.

Module FloatFacts.
Import SpecFacts.

Local Open Scope float_scope.

Lemma Prim2SF_zero : Prim2SF 0 = S754_zero false.
Proof. reflexivity. Qed.

Lemma Prim2SF_neg_zero : Prim2SF neg_zero = S754_zero true.
Proof. reflexivity. Qed.

Lemma Prim2SF_nan : Prim2SF nan = S754_nan.
Proof. reflexivity. Qed.

Lemma Prim2SF_infinity : Prim2SF infinity = S754_infinity false.
Proof. reflexivity. Qed.

Lemma Prim2SF_neg_infinity : Prim2SF neg_infinity = S754_infinity true.
Proof. reflexivity. Qed.

Lemma is_nan_Prim2SF (x : float) :
  is_nan x = match Prim2SF x with S754_nan => true | _ => false end.
Proof.
  unfold is_nan. rewrite FloatAxioms.eqb_spec. unfold SFeqb.
  destruct (Prim2SF x) as [s|s| |s m e] eqn:E; try reflexivity;
    rewrite SFcompare_refl by discriminate; reflexivity.
Qed.

Lemma is_nan_false (x : float) :
  is_nan x = false <-> Prim2SF x <> S754_nan.
Proof.
  pose proof (is_nan_Prim2SF x) as H.
  destruct (Prim2SF x); rewrite H; split; congruence.
Qed.

Lemma is_nan_true (x : float) : is_nan x = true -> x = nan.
Proof.
  rewrite is_nan_Prim2SF. intros H. apply Prim2SF_inj. rewrite Prim2SF_nan.
  destruct (Prim2SF x); congruence.
Qed.

(** [NaN - y] is [NaN]. *)
Lemma sub_nan_l (y : float) : nan - y = nan.
Proof.
  apply Prim2SF_inj. rewrite FloatAxioms.sub_spec, Prim2SF_nan. reflexivity.
Qed.

(** [NaN / y] and [NaN * y] are [NaN]. *)
Lemma div_nan_l (y : float) : nan / y = nan.
Proof.
  apply Prim2SF_inj. rewrite FloatAxioms.div_spec, Prim2SF_nan. reflexivity.
Qed.

Lemma mul_nan_l (y : float) : nan * y = nan.
Proof.
  apply Prim2SF_inj. rewrite FloatAxioms.mul_spec, Prim2SF_nan. reflexivity.
Qed.

(** [x - (+0)] is [x], for every [x]. *)
Lemma sub_zero_r (x : float) : x - 0 = x.
Proof.
  apply Prim2SF_inj. rewrite FloatAxioms.sub_spec, Prim2SF_zero.
  destruct (Prim2SF x) as [s|s| |s m e]; try reflexivity.
  destruct s; reflexivity.
Qed.

(** [x - (-0)] is [x] too, except that [-0 - (-0)] is [+0]. *)
Lemma sub_neg_zero_r (x : float) :
  x - neg_zero = if Leibniz.eqb x neg_zero then 0 else x.
Proof.
  destruct (Leibniz.eqb x neg_zero) eqn:E.
  - apply Leibniz.eqb_spec in E. subst x. reflexivity.
  - apply Prim2SF_inj. rewrite FloatAxioms.sub_spec, Prim2SF_neg_zero.
    destruct (Prim2SF x) as [s|s| |s m e] eqn:Ex; try reflexivity.
    destruct s; try reflexivity.
    exfalso. rewrite <- Prim2SF_neg_zero in Ex. apply Prim2SF_inj in Ex.
    apply Leibniz.eqb_spec in Ex. congruence.
Qed.

(** The numbers IEEE equality identifies with [0] are [+0] and [-0]. *)
Lemma eqb_zero_inv (x : float) :
  (x =? 0) = true -> x = 0 \/ x = neg_zero.
Proof.
  rewrite FloatAxioms.eqb_spec, Prim2SF_zero. unfold SFeqb. intros H.
  destruct (Prim2SF x) as [s|s| |s m e] eqn:E; simpl in H;
    try discriminate; try (destruct s; discriminate).
  destruct s; [right|left]; apply Prim2SF_inj; rewrite E; reflexivity.
Qed.

Lemma is_finite_SFfinite (x : float) :
  is_finite x = true -> SFfinite (Prim2SF x) = true.
Proof.
  unfold is_finite, is_infinity. rewrite is_nan_Prim2SF, FloatAxioms.eqb_spec, FloatAxioms.abs_spec.
  rewrite Prim2SF_infinity.
  destruct (Prim2SF x) as [s|s| |s m e]; simpl; intros H; congruence.
Qed.

(** The difference of a finite number and a number is a number. *)
Lemma sub_is_number (x y : float) :
  is_finite x = true -> is_nan y = false -> is_nan (x - y) = false.
Proof.
  intros Hx Hy. apply is_nan_false. rewrite FloatAxioms.sub_spec.
  apply SFsub_finite_not_nan.
  - apply is_finite_SFfinite, Hx.
  - apply is_finite_SFfinite in Hx. destruct (Prim2SF x); discriminate.
  - apply is_nan_false, Hy.
Qed.

(** A number ordered with [0] is a number. *)
Lemma leb_zero_is_number (x : float) : (0 <=? x) = true -> is_nan x = false.
Proof.
  rewrite FloatAxioms.leb_spec, is_nan_Prim2SF, Prim2SF_zero. unfold SFleb.
  destruct (Prim2SF x); simpl; congruence.
Qed.

Lemma ltb_zero_is_number (x : float) : (0 <? x) = true -> is_nan x = false.
Proof.
  rewrite FloatAxioms.ltb_spec, is_nan_Prim2SF, Prim2SF_zero. unfold SFltb.
  destruct (Prim2SF x); simpl; congruence.
Qed.

(** Among numbers, the order with [0] is total. *)
Lemma leb_zero_total (x : float) :
  is_nan x = false -> (x <=? 0) = false -> (0 <=? x) = true.
Proof.
  rewrite is_nan_Prim2SF, !FloatAxioms.leb_spec, Prim2SF_zero. unfold SFleb.
  destruct (Prim2SF x) as [s|s| |s m e]; simpl; try congruence;
    destruct s; simpl; congruence.
Qed.

Lemma ltb_zero_not_leb (x : float) : (0 <? x) = true -> (x <=? 0) = false.
Proof.
  rewrite FloatAxioms.ltb_spec, FloatAxioms.leb_spec, Prim2SF_zero. unfold SFltb, SFleb.
  destruct (Prim2SF x) as [s|s| |s m e]; simpl; try congruence;
    destruct s; simpl; congruence.
Qed.

(** The first iteration of [Math.max], from [-Infinity], yields the
    first argument. *)
Lemma max_step_neg_infinity (x : float) : max_step neg_infinity x = x.
Proof.
  unfold max_step. change (is_nan neg_infinity) with false.
  change (classify neg_infinity) with NInf. simpl orb.
  destruct (is_nan x) eqn:Hn.
  - symmetry. apply is_nan_true, Hn.
  - assert (H : (if neg_infinity <? x then x else neg_infinity) = x).
    { rewrite FloatAxioms.ltb_spec, Prim2SF_neg_infinity. unfold SFltb.
      rewrite is_nan_Prim2SF in Hn.
      destruct (Prim2SF x) as [s|s| |s m e] eqn:E; simpl; try reflexivity;
        try discriminate Hn.
      destruct s; simpl; try reflexivity.
      apply Prim2SF_inj. rewrite E. reflexivity. }
    destruct (classify x); exact H.
Qed.

(** [Math.max(d, 0)] in closed form. *)
Lemma Math_max_0 (d : float) :
  Math_max d 0 = if is_nan d then nan else if d <=? 0 then 0 else d.
Proof.
  unfold Math_max. rewrite max_step_neg_infinity. unfold max_step.
  change (is_nan 0) with false. change (classify 0) with PZero.
  rewrite orb_false_r. destruct (is_nan d) eqn:Hn; [reflexivity|].
  rewrite is_nan_Prim2SF in Hn.
  rewrite FloatAxioms.classify_spec, FloatAxioms.ltb_spec, FloatAxioms.leb_spec,
    Prim2SF_zero.
  unfold SFltb, SFleb, SF64classify, SFclassify.
  destruct (Prim2SF d) as [s|s| |s m e] eqn:E; try discriminate Hn.
  - destruct s; simpl; [reflexivity|].
    apply Prim2SF_inj. rewrite E. reflexivity.
  - destruct s; reflexivity.
  - destruct s; destruct (Z.eqb (Z.pos (digits2_pos m)) prec); reflexivity.
Qed.

(** [Math.max] of a number and [0] is at least [0]. *)
Lemma Math_max_0_nonneg (d : float) :
  is_nan d = false -> (0 <=? Math_max d 0) = true.
Proof.
  intros Hn. rewrite Math_max_0, Hn.
  destruct (d <=? 0) eqn:Hd; [reflexivity|].
  apply leb_zero_total; assumption.
Qed.

(** [Math.max] of a positive number and [0] is that number. *)
Lemma Math_max_0_pos (d : float) : (0 <? d) = true -> Math_max d 0 = d.
Proof.
  intros H. rewrite Math_max_0, (ltb_zero_is_number d H),
    (ltb_zero_not_leb d H). reflexivity.
Qed.

(** Under [Math.max(_, 0)] the sign of a zero subtrahend is immaterial. *)
Lemma Math_max_sub_neg_zero (x : float) :
  Math_max (x - neg_zero) 0 = Math_max (x - 0) 0.
Proof.
  rewrite sub_neg_zero_r, sub_zero_r.
  destruct (Leibniz.eqb x neg_zero) eqn:E; [|reflexivity].
  apply FloatAxioms.Leibniz.eqb_spec in E. subst x. reflexivity.
Qed.

End FloatFacts.

(** * The calculators *)

Import FloatFacts.

Section Calculators.

Local Open Scope float_scope.

Lemma overage_of_undefined (lim : value) : overage_of VUndefined lim = nan.
Proof.
  unfold overage_of, JS.sub. simpl ToNumber. rewrite sub_nan_l. reflexivity.
Qed.

Lemma overage_of_no_limit (x : float) :
  overage_of (VNumber x) VUndefined = Math_max x 0.
Proof.
  unfold overage_of, JS.sub, JS.or. simpl. rewrite sub_zero_r. reflexivity.
Qed.

(** With a limit that is a number, [limit || 0] and [limit ?? 0] give the
    same overage. *)
Lemma overage_of_nullish (x : float) (lim : value) :
  match lim with VUndefined => True | VNumber l => is_nan l = false end ->
  overage_of (VNumber x) lim = Math_max (x - nullish lim 0) 0.
Proof.
  destruct lim as [|l]; intros Hl; [reflexivity|].
  unfold overage_of, JS.sub, JS.or, nullish. simpl ToBoolean.
  rewrite Hl, orb_false_r. unfold is_zero.
  change PrimFloat.zero with 0. destruct (l =? 0) eqn:Hz; simpl; [|reflexivity].
  destruct (eqb_zero_inv l Hz) as [->| ->]; [reflexivity|].
  symmetry. apply Math_max_sub_neg_zero.
Qed.

Lemma percentage_of_guard (u lim : value) :
  percentage_guard lim u (percentage_of u lim).
Proof.
  unfold percentage_guard, percentage_of. repeat split.
  - intros ->. reflexivity.
  - intros l -> Hz. simpl. unfold is_zero. change PrimFloat.zero with 0.
    rewrite Hz. reflexivity.
  - intros l -> Hn. simpl. rewrite Hn, orb_true_r. reflexivity.
  - intros l -> Hn Hz. simpl. unfold is_zero. change PrimFloat.zero with 0.
    rewrite Hn, Hz. reflexivity.
Qed.

End Calculators.

(** * Limit resolution *)

Section Resolution.

Lemma scan_item_transcoding (L : Limits) (i : UsageItem) :
  transcoding (scan_item L i) =
  if String.eqb (toLowerCase (name i)) "transcoding" then limit i
  else transcoding L.
Proof.
  unfold scan_item.
  destruct (String.eqb _ "transcoding"), (String.eqb _ "delivery"),
    (String.eqb _ "storage"); reflexivity.
Qed.

Lemma scan_item_streaming (L : Limits) (i : UsageItem) :
  streaming (scan_item L i) =
  if String.eqb (toLowerCase (name i)) "delivery" then limit i
  else streaming L.
Proof.
  unfold scan_item.
  destruct (String.eqb _ "transcoding"), (String.eqb _ "delivery"),
    (String.eqb _ "storage"); reflexivity.
Qed.

Lemma scan_item_storage (L : Limits) (i : UsageItem) :
  storage (scan_item L i) =
  if String.eqb (toLowerCase (name i)) "storage" then limit i
  else storage L.
Proof.
  unfold scan_item.
  destruct (String.eqb _ "transcoding"), (String.eqb _ "delivery"),
    (String.eqb _ "storage"); reflexivity.
Qed.

Lemma Limits_eq (L L' : Limits) :
  transcoding L = transcoding L' -> streaming L = streaming L' ->
  storage L = storage L' -> L = L'.
Proof. destruct L, L'; simpl; congruence. Qed.

Lemma scan_item_unrecognized (L : Limits) (i : UsageItem) :
  unrecognized i -> scan_item L i = L.
Proof.
  intros (H1 & H2 & H3). apply String.eqb_neq in H1, H2, H3.
  unfold scan_item. rewrite H1, H2, H3. reflexivity.
Qed.

Lemma scan_items_snoc (items : list UsageItem) (i : UsageItem) (L : Limits) :
  scan_items (items ++ [i]) L = scan_item (scan_items items L) i.
Proof. unfold scan_items. rewrite fold_left_app. reflexivity. Qed.

Lemma last_match_snoc (key : string) (items : list UsageItem) (i : UsageItem) :
  last_match key (items ++ [i]) =
  if String.eqb (toLowerCase (name i)) key then Some (limit i)
  else last_match key items.
Proof.
  unfold last_match. rewrite rev_unit. simpl.
  destruct (String.eqb (toLowerCase (name i)) key); reflexivity.
Qed.

(** Each property of [limits] ends up holding the limit of the last line
    item carrying its name, and keeps its initial value when there is
    none. *)
Lemma scan_items_last_match (items : list UsageItem) (L : Limits) :
  scan_items items L =
  mkLimits (default (transcoding L) (last_match "transcoding" items))
           (default (streaming L) (last_match "delivery" items))
           (default (storage L) (last_match "storage" items)).
Proof.
  induction items as [|i items IH] using rev_ind.
  - destruct L; reflexivity.
  - rewrite scan_items_snoc, !last_match_snoc. apply Limits_eq; simpl.
    + rewrite scan_item_transcoding, IH.
      destruct (String.eqb _ _); reflexivity.
    + rewrite scan_item_streaming, IH.
      destruct (String.eqb _ _); reflexivity.
    + rewrite scan_item_storage, IH.
      destruct (String.eqb _ _); reflexivity.
Qed.

(** The scan reads a name only through its lower-cased form. *)
Lemma scan_item_case (L : Limits) (i i' : UsageItem) :
  toLowerCase (name i) = toLowerCase (name i') -> limit i = limit i' ->
  scan_item L i = scan_item L i'.
Proof. intros Hn Hl. unfold scan_item. rewrite Hn, Hl. reflexivity. Qed.

Lemma scan_items_case (items items' : list UsageItem) :
  Forall2 (fun i i' => toLowerCase (name i) = toLowerCase (name i') /\
                       limit i = limit i') items items' ->
  forall L, scan_items items L = scan_items items' L.
Proof.
  induction 1 as [|i i' items items' [Hn Hl] _ IH]; intros L; [reflexivity|].
  simpl. rewrite (scan_item_case L i i' Hn Hl). apply IH.
Qed.

Lemma scan_items_unrecognized (items : list UsageItem) :
  Forall unrecognized items -> forall L, scan_items items L = L.
Proof.
  induction 1 as [|i items Hi _ IH]; intros L; [reflexivity|].
  simpl. rewrite (scan_item_unrecognized L i Hi). apply IH.
Qed.

(** Line items with other names leave a property as it is. *)
Lemma scan_items_keeps (items : list UsageItem) (key : string)
    (field : Limits -> value) :
  (forall L i, field (scan_item L i) =
               if String.eqb (toLowerCase (name i)) key then limit i
               else field L) ->
  Forall (fun j => toLowerCase (name j) <> key) items ->
  forall L, field (scan_items items L) = field L.
Proof.
  intros Hf. induction 1 as [|j items Hj _ IH]; intros L; [reflexivity|].
  simpl. change (fold_left scan_item items (scan_item L j))
    with (scan_items items (scan_item L j)).
  rewrite IH, Hf. apply String.eqb_neq in Hj. rewrite Hj. reflexivity.
Qed.

Lemma scan_items_last_wins (pre post : list UsageItem) (i : UsageItem)
    (key : string) (field : Limits -> value) :
  (forall L i, field (scan_item L i) =
               if String.eqb (toLowerCase (name i)) key then limit i
               else field L) ->
  toLowerCase (name i) = key ->
  Forall (fun j => toLowerCase (name j) <> key) post ->
  forall L, field (scan_items (pre ++ i :: post) L) = limit i.
Proof.
  intros Hf Hi Hpost L. unfold scan_items. rewrite fold_left_app. simpl.
  change (fold_left scan_item post ?l) with (scan_items post l).
  rewrite (scan_items_keeps post key field Hf Hpost), Hf.
  apply String.eqb_eq in Hi. rewrite Hi. reflexivity.
Qed.

End Resolution.

(** * The handlers *)

Section Handlers.

Context {Report : Type}.

Implicit Types (env : Env Report) (req : Request) (s : State Report).
Implicit Types (st : gmap string Doc) (rows : list UsageRow).

Lemma upsert_row_run (r : UsageRow) s :
  upsert_row r s =
  (Ok tt,
   mkState (<[usage_key r := mkDoc "usage" r]> (store s))
           (trace s ++ @upsert_events Report [r] (store s))).
Proof.
  unfold upsert_row, bind, store_get. simpl.
  destruct (store s !! _); unfold store_replace, store_create; simpl;
    rewrite <- app_assoc; reflexivity.
Qed.

Lemma for_of_upsert_run rows : forall s,
  for_of rows upsert_row s =
  (Ok tt,
   mkState (upserted rows (store s))
           (trace s ++ @upsert_events Report rows (store s))).
Proof.
  induction rows as [|r rows IH]; intros s; simpl.
  - unfold ret. rewrite app_nil_r. destruct s; reflexivity.
  - unfold bind at 1. rewrite upsert_row_run, IH. simpl.
    rewrite <- app_assoc. reflexivity.
Qed.

(** The handler produces the effects of the functional account: it never
    throws, the cache becomes [upserted] of the fetched rows, and the trace
    grows by the report events followed by the sync events. *)
Lemma post_update_run env req s :
  post_update env req s =
  (Ok tt,
   mkState (upserted (fetched env req) (store s))
           (trace s ++ report_events env req
                    ++ sync_events env req (store s))).
Proof.
  unfold post_update, report_events, sync_events, fetched, resolved_from,
    resolved_to.
  destruct (strict_eq_str (newUsageReport (query req)) "true");
    destruct (falsy (query_arg (fromTime (query req))));
    destruct (falsy (query_arg (toTime (query req))));
    try destruct (db_usage_find env watermark_opts) as [|r0 rest] eqn:Hfind;
    unfold bind, emit, ret, res_status, res_json; simpl;
    fold watermark_opts; rewrite ?Hfind; simpl;
    rewrite for_of_upsert_run; simpl;
    unfold emit; simpl; rewrite <- ?app_assoc; reflexivity.
Qed.

(** *** The cache after the loop *)

Lemma upserted_snoc rows (r : UsageRow) st :
  upserted (rows ++ [r]) st =
  <[usage_key r := mkDoc "usage" r]> (upserted rows st).
Proof. unfold upserted. rewrite fold_left_app. reflexivity. Qed.

(** An entry of the cache after the loop is the last fetched row with
    that key, wrapped with its kind, or the entry from before. *)
Lemma upserted_lookup rows st (k : string) :
  upserted rows st !! k =
  match find (fun r => String.eqb (usage_key r) k) (rev rows) with
  | Some r => Some (mkDoc "usage" r)
  | None => st !! k
  end.
Proof.
  induction rows as [|r rows IH] using rev_ind; [reflexivity|].
  rewrite upserted_snoc, rev_unit. cbn [find].
  destruct (String.eqb (usage_key r) k) eqn:E.
  - apply String.eqb_eq in E. rewrite <- E. apply lookup_insert_eq.
  - apply String.eqb_neq in E. rewrite lookup_insert_ne by exact E.
    exact IH.
Qed.

Lemma upserted_idempotent rows st :
  upserted rows (upserted rows st) = upserted rows st.
Proof.
  apply map_eq. intros k. rewrite !upserted_lookup.
  destruct (find _ (rev rows)); reflexivity.
Qed.

(** *** Reading the trace of the loop *)

Lemma fetch_calls_upsert rows : forall st,
  fetch_calls (@upsert_events Report rows st) = [].
Proof.
  induction rows as [|r rows IH]; intros st; [reflexivity|].
  simpl. destruct (st !! _); simpl; apply IH.
Qed.

Lemma find_calls_upsert rows : forall st,
  find_calls (@upsert_events Report rows st) = [].
Proof.
  induction rows as [|r rows IH]; intros st; [reflexivity|].
  simpl. destruct (st !! _); simpl; apply IH.
Qed.

Lemma responses_upsert rows : forall st,
  responses (@upsert_events Report rows st) = [].
Proof.
  induction rows as [|r rows IH]; intros st; [reflexivity|].
  simpl. destruct (st !! _); simpl; apply IH.
Qed.

Lemma writes_upsert rows : forall st,
  writes (@upsert_events Report rows st) = map (mkDoc "usage") rows.
Proof.
  induction rows as [|r rows IH]; intros st; [reflexivity|].
  simpl. destruct (st !! _); simpl; f_equal; apply IH.
Qed.

Lemma fetch_calls_app (a b : list (event Report)) :
  fetch_calls (a ++ b) = fetch_calls a ++ fetch_calls b.
Proof. apply omap_app. Qed.

Lemma find_calls_app (a b : list (event Report)) :
  find_calls (a ++ b) = find_calls a ++ find_calls b.
Proof. apply omap_app. Qed.

Lemma writes_app (a b : list (event Report)) :
  writes (a ++ b) = writes a ++ writes b.
Proof. apply omap_app. Qed.

Lemma responses_app (a b : list (event Report)) :
  responses (a ++ b) = responses a ++ responses b.
Proof. apply omap_app. Qed.

Lemma fetch_calls_sync env req st :
  fetch_calls (sync_events env req st) =
  [(resolved_from env req, resolved_to env req, true)].
Proof.
  unfold sync_events. rewrite !fetch_calls_app, fetch_calls_upsert.
  destruct (falsy _); reflexivity.
Qed.

Lemma find_calls_sync env req st :
  find_calls (sync_events env req st) =
  if falsy (query_arg (fromTime (query req))) then [watermark_opts] else [].
Proof.
  unfold sync_events. rewrite !find_calls_app, find_calls_upsert.
  destruct (falsy _); reflexivity.
Qed.

Lemma writes_sync env req st :
  writes (sync_events env req st) =
  map (mkDoc "usage") (fetched env req).
Proof.
  unfold sync_events. rewrite !writes_app, writes_upsert.
  destruct (falsy _); simpl; rewrite app_nil_r; reflexivity.
Qed.

Lemma responses_sync env req st :
  responses (sync_events env req st) =
  [BRows (fetched env req)].
Proof.
  unfold sync_events. rewrite !responses_app, responses_upsert.
  destruct (falsy _); reflexivity.
Qed.

(** *** The GET handlers *)

Lemma get_root_run env req s :
  get_root env req s =
  let w := default_window env (query_arg (fromTime (query req)))
                              (query_arg (toTime (query req))) in
  (Ok tt,
   mkState (store s)
           (trace s ++ [EvCachedUsageHistory (fst w) (snd w) true;
                        EvStatus 200;
                        EvJson (BRows (db_stream_cachedUsageHistory env
                                         (fst w) (snd w) true))])).
Proof.
  unfold get_root. destruct (default_window _ _ _) as [f t]. simpl.
  unfold bind, res_status, res_json, emit; simpl.
  rewrite <- !app_assoc. reflexivity.
Qed.

Lemma get_user_run env req s (origin : string) (rest : list string) :
  falsy (query_arg (userId (query req))) = false ->
  getIngest env = origin :: rest ->
  get_user env req s =
  let w := default_window env (query_arg (fromTime (query req)))
                              (query_arg (toTime (query req))) in
  let user := default "" (userId (query req)) in
  (Ok tt,
   mkState (store s)
           (trace s ++ [EvGetIngest;
                        EvFetchUsage origin (fst w) (snd w) user (token req);
                        EvStatus 200;
                        EvJson (BUsage (metering env origin (fst w) (snd w)
                                          user (token req)))])).
Proof.
  intros Hu Hi. unfold get_user.
  destruct (default_window _ _ _) as [f t]. rewrite Hu, Hi. simpl.
  unfold getBillingUsage, bind, ret, res_status, res_json, emit; simpl.
  rewrite <- !app_assoc. reflexivity.
Qed.

Lemma falsy_supplied (x : string) : x <> "" -> falsy (TString x) = false.
Proof. intros H. simpl. apply String.eqb_neq, H. Qed.

Lemma default_window_from env (x : string) (t : timeArg) :
  x <> "" -> default_window env (TString x) t = (TString x, t).
Proof.
  intros H. unfold default_window. rewrite (falsy_supplied x H).
  reflexivity.
Qed.

Lemma default_window_to env (f : timeArg) (y : string) :
  y <> "" -> default_window env f (TString y) = (f, TString y).
Proof.
  intros H. unfold default_window.
  rewrite (falsy_supplied y H), andb_false_r. reflexivity.
Qed.

End Handlers.

(** * Properties of the calculators and of the limit resolution *)

Section CalculatorClaims.

Local Open Scope float_scope.

(** C1, as stated: the end-to-end scenario does not give the over-usage
    report [{100, 0, 100}] together with the percentages [{120, 75, 120}];
    the over-usage of the total minutes is not [100]. *)
Lemma end_to_end_overage_is_not_100 :
  ~ (calculateOverUsage plan_example usage_example = mkMetrics 100 0 100 /\
     getUsagePercentageOfLimit plan_example usage_example
     = mkMetrics 120 75 120).
Proof.
  intros [H _].
  apply (f_equal (fun m => TotalUsageMins m =? 100)) in H.
  vm_compute in H. discriminate H.
Qed.

(** C1, amended: for plan limits [{transcoding: 1000, delivery: 2000,
    storage: 500}] and usage [{1200, 1500, 600}], [calculateOverUsage]
    returns [{200, 0, 100}] and [getUsagePercentageOfLimit] returns
    [{120, 75, 120}]. *)
Theorem end_to_end_scenario :
  calculateOverUsage plan_example usage_example = mkMetrics 200 0 100 /\
  getUsagePercentageOfLimit plan_example usage_example
  = mkMetrics 120 75 120.
Proof. split; vm_compute; reflexivity. Qed.

(** C2, as stated: with the usage aggregate absent, the over-usage under
    the scenario's plan is not [max(0 - 1000, 0)]; it is [NaN]. *)
Lemma missing_usage_is_not_zero :
  let r := TotalUsageMins (calculateOverUsage plan_example None) in
  is_nan r = true /\ r <> Math_max (0 - 1000) 0.
Proof.
  split; [vm_compute; reflexivity|].
  intros H. apply (f_equal is_nan) in H. vm_compute in H. discriminate H.
Qed.

(** C2, amended: [calculateOverUsage] is defined on every plan and every
    usage aggregate, and a usage value that is missing is not counted as
    [0]: when the aggregate is absent every field of the report is [NaN],
    and when the aggregate lacks a metric, the field of that metric is
    [NaN], whatever the limits are. *)
Theorem calculateOverUsage_missing_usage (product : option Product) :
  calculateOverUsage product None = mkMetrics nan nan nan /\
  forall t d s : value,
    TotalUsageMins
      (calculateOverUsage product (Some (mkMetrics VUndefined d s))) = nan /\
    DeliveryUsageMins
      (calculateOverUsage product (Some (mkMetrics t VUndefined s))) = nan /\
    StorageUsageMins
      (calculateOverUsage product (Some (mkMetrics t d VUndefined))) = nan.
Proof.
  unfold calculateOverUsage. simpl.
  rewrite !overage_of_undefined. split; [reflexivity|].
  intros t d s. repeat split; apply overage_of_undefined.
Qed.

(** C5: when the resolved limits lack the limit of a metric, the
    over-usage of that metric is [Math.max(usage, 0)], which is the usage
    itself when it is positive; with [limits = {}] and
    [TotalUsageMins = 500] the reported over-usage of the total is
    [500]. *)
Theorem calculateOverUsage_missing_limit
    (product : option Product) (usage : Usage) (x : float) :
  (transcoding (resolveLimits product) = VUndefined ->
   opt_field TotalUsageMins usage = VNumber x ->
   TotalUsageMins (calculateOverUsage product usage) = Math_max x 0 /\
   ((0 <? x) = true -> TotalUsageMins (calculateOverUsage product usage) = x))
  /\
  (streaming (resolveLimits product) = VUndefined ->
   opt_field DeliveryUsageMins usage = VNumber x ->
   DeliveryUsageMins (calculateOverUsage product usage) = Math_max x 0 /\
   ((0 <? x) = true -> DeliveryUsageMins (calculateOverUsage product usage) = x))
  /\
  (storage (resolveLimits product) = VUndefined ->
   opt_field StorageUsageMins usage = VNumber x ->
   StorageUsageMins (calculateOverUsage product usage) = Math_max x 0 /\
   ((0 <? x) = true -> StorageUsageMins (calculateOverUsage product usage) = x))
  /\
  (forall d s : value,
     resolveLimits product = no_limits ->
     TotalUsageMins
       (calculateOverUsage product (Some (mkMetrics (num 500) d s))) = 500).
Proof.
  unfold calculateOverUsage; simpl.
  split; [|split; [|split]].
  1-3: intros Hl Hu; rewrite Hl, Hu, overage_of_no_limit;
       split; [reflexivity|apply Math_max_0_pos].
  intros d s ->. reflexivity.
Qed.

Lemma calculateOverUsage_missing_limit_witness :
  transcoding (resolveLimits (Some (mkProduct (Some [])))) = VUndefined /\
  TotalUsageMins
    (calculateOverUsage (Some (mkProduct (Some [])))
       (Some (mkMetrics (num 500) (num 7) (num 9)))) = 500.
Proof.
  split; [reflexivity|].
  destruct (calculateOverUsage_missing_limit (Some (mkProduct (Some [])))
              (Some (mkMetrics (num 500) (num 7) (num 9))) 500)
    as [H _].
  destruct (H eq_refl eq_refl) as [_ H']. apply H'. reflexivity.
Defined.

(** C6: [getUsagePercentageOfLimit] never divides by a zero limit: for
    each metric, when the limit is absent or equals [0] (or is not a
    number) the percentage is exactly [0], and otherwise it is
    [Math.max((usage / limit) * 100, 0)]. *)
Theorem getUsagePercentageOfLimit_guard
    (product : option Product) (usage : Usage) :
  let limits := resolveLimits product in
  let r := getUsagePercentageOfLimit product usage in
  percentage_guard (transcoding limits) (opt_field TotalUsageMins usage)
                   (TotalUsageMins r) /\
  percentage_guard (streaming limits) (opt_field DeliveryUsageMins usage)
                   (DeliveryUsageMins r) /\
  percentage_guard (storage limits) (opt_field StorageUsageMins usage)
                   (StorageUsageMins r).
Proof. simpl. repeat split; apply percentage_of_guard. Qed.

Lemma getUsagePercentageOfLimit_guard_witness :
  TotalUsageMins
    (getUsagePercentageOfLimit
       (Some (mkProduct (Some [mkItem "transcoding" (num 0)])))
       usage_example) = 0 /\
  DeliveryUsageMins (getUsagePercentageOfLimit plan_example usage_example)
  = Math_max (1500 / 2000 * 100) 0.
Proof.
  split.
  - destruct (getUsagePercentageOfLimit_guard
                (Some (mkProduct (Some [mkItem "transcoding" (num 0)])))
                usage_example) as [(_ & H & _) _].
    apply (H 0); reflexivity.
  - destruct (getUsagePercentageOfLimit_guard plan_example usage_example)
      as (_ & (_ & _ & _ & H) & _).
    apply (H 2000); reflexivity.
Defined.

End CalculatorClaims.

Section ResolutionClaims.

(** C7: the scan reads names through [toLowerCase] only, so it is
    insensitive to case; a line item with another name changes nothing;
    each limit is that of the last line item carrying its name, later
    items overwriting earlier ones; and a plan without matching line
    items, without line items or absent yields three undefined limits. *)
Theorem resolveLimits_scan :
  (forall items : list UsageItem,
     resolveLimits (Some (mkProduct (Some items))) =
     mkLimits (default VUndefined (last_match "transcoding" items))
              (default VUndefined (last_match "delivery" items))
              (default VUndefined (last_match "storage" items))) /\
  (forall (items items' : list UsageItem) (L : Limits),
     Forall2 (fun i i' => toLowerCase (name i) = toLowerCase (name i') /\
                          limit i = limit i') items items' ->
     scan_items items L = scan_items items' L) /\
  (forall (L : Limits) (i : UsageItem),
     unrecognized i -> scan_item L i = L) /\
  (forall (pre post : list UsageItem) (i : UsageItem) (L : Limits),
     Forall (fun j => toLowerCase (name j) <> toLowerCase (name i)) post ->
     (toLowerCase (name i) = "transcoding" ->
      transcoding (scan_items (pre ++ i :: post) L) = limit i) /\
     (toLowerCase (name i) = "delivery" ->
      streaming (scan_items (pre ++ i :: post) L) = limit i) /\
     (toLowerCase (name i) = "storage" ->
      storage (scan_items (pre ++ i :: post) L) = limit i)) /\
  (forall items : list UsageItem,
     Forall unrecognized items ->
     resolveLimits (Some (mkProduct (Some items))) = no_limits) /\
  resolveLimits None = no_limits /\
  resolveLimits (Some (mkProduct None)) = no_limits /\
  resolveLimits plan_mixed_case = mkLimits (num 5) (num 2) (num 3).
Proof.
  split; [|split; [|split; [|split; [|split; [|split; [|split]]]]]].
  - intros items. apply (scan_items_last_match items no_limits).
  - intros items items' L H. apply scan_items_case, H.
  - apply scan_item_unrecognized.
  - intros pre post i L Hpost. repeat split; intros Hi.
    + apply (scan_items_last_wins pre post i "transcoding");
        [apply scan_item_transcoding|exact Hi|].
      rewrite <- Hi. exact Hpost.
    + apply (scan_items_last_wins pre post i "delivery");
        [apply scan_item_streaming|exact Hi|].
      rewrite <- Hi. exact Hpost.
    + apply (scan_items_last_wins pre post i "storage");
        [apply scan_item_storage|exact Hi|].
      rewrite <- Hi. exact Hpost.
  - intros items H. simpl. apply scan_items_unrecognized, H.
  - reflexivity.
  - reflexivity.
  - reflexivity.
Qed.

Lemma resolveLimits_scan_witness :
  unrecognized (mkItem "bandwidth" (num 4)) /\
  scan_item no_limits (mkItem "bandwidth" (num 4)) = no_limits /\
  transcoding
    (scan_items ([mkItem "TRANSCODING" (num 1)]
                 ++ mkItem "Transcoding" (num 5)
                 :: [mkItem "Storage" (num 3)]) no_limits) = num 5.
Proof.
  assert (Hu : unrecognized (mkItem "bandwidth" (num 4)))
    by (repeat split; discriminate).
  destruct resolveLimits_scan as (_ & _ & Hign & Hlast & _).
  split; [exact Hu|]. split; [exact (Hign no_limits _ Hu)|].
  refine (proj1 (Hlast [mkItem "TRANSCODING" (num 1)]
                       [mkItem "Storage" (num 3)]
                       (mkItem "Transcoding" (num 5)) no_limits _) eq_refl).
  repeat constructor. discriminate.
Defined.

End ResolutionClaims.

(** * Properties of the handlers *)

Section HandlerClaims.

Context {Report : Type}.

Implicit Types (env : Env Report) (req : Request) (s : State Report).
Implicit Types (st : gmap string Doc).

Lemma fetch_calls_report env req : fetch_calls (report_events env req) = [].
Proof. unfold report_events. destruct (strict_eq_str _ _); reflexivity. Qed.

Lemma find_calls_report env req : find_calls (report_events env req) = [].
Proof. unfold report_events. destruct (strict_eq_str _ _); reflexivity. Qed.

(** C3: in [POST /update], when no [fromTime] is supplied the store is
    asked for one record ordered by date descending, replica read allowed,
    and the fetch starts at the [date] of that record, or at midnight of
    1 January 2020 when there is none; when no [toTime] is supplied the
    fetch ends at the current time; supplied bounds are passed on
    unchanged, and a supplied [fromTime] saves the store query. *)
Theorem post_update_window_resolution env req st :
  let tr := trace (snd (post_update env req (mkState st []))) in
  let opts := mkFindOpts 1 "data->>'date' DESC" true in
  (falsy (query_arg (fromTime (query req))) = true ->
   find_calls tr = [opts] /\
   map (fun c => fst (fst c)) (fetch_calls tr) =
   [match db_usage_find env opts with
    | r :: _ => TNumber (date r)
    | [] => TNumber (1577836800000 + 60000 * timezoneOffset env)
    end]) /\
  (falsy (query_arg (fromTime (query req))) = false ->
   find_calls tr = [] /\
   map (fun c => fst (fst c)) (fetch_calls tr) =
   [query_arg (fromTime (query req))]) /\
  (falsy (query_arg (toTime (query req))) = true ->
   map (fun c => snd (fst c)) (fetch_calls tr) = [TNumber (now env)]) /\
  (falsy (query_arg (toTime (query req))) = false ->
   map (fun c => snd (fst c)) (fetch_calls tr) =
   [query_arg (toTime (query req))]).
Proof.
  intros tr opts. subst tr. rewrite post_update_run. simpl trace.
  rewrite fetch_calls_app, find_calls_app, fetch_calls_report,
    find_calls_report, fetch_calls_sync, find_calls_sync. simpl.
  unfold resolved_from, resolved_to.
  split; [|split; [|split]]; intros Hq; rewrite Hq;
    try split; reflexivity.
Qed.


(** C10: in [POST /update] the billing report does not stand in for the
    sync.  With [newUsageReport] set to ["true"], [reportUsage] is called
    and its result is written as the response; the handler then goes on
    exactly as without the flag, from the same cache: it resolves the
    window, fetches the history, writes every fetched period to the store
    and hands the history to [res.json], a second response attempted on
    the same request. *)
Theorem post_update_report_then_sync env req s :
  newUsageReport (query req) = Some "true" ->
  let quiet :=
    mkRequest (mkQuery (fromTime (query req)) (toTime (query req)) None
                       (userId (query req))) (token req) in
  let report :=
    [EvReportUsage (token req); EvStatus 200;
     EvJson (BReport (reportUsage env (token req)))] in
  let sync := sync_events env req (store s) in
  trace (snd (post_update env req s)) = trace s ++ report ++ sync /\
  trace (snd (post_update env quiet s)) = trace s ++ sync /\
  store (snd (post_update env req s)) = store (snd (post_update env quiet s)) /\
  fetch_calls sync = [(resolved_from env req, resolved_to env req, true)] /\
  writes sync = map (mkDoc "usage") (fetched env req) /\
  responses (report ++ sync) =
  [BReport (reportUsage env (token req)); BRows (fetched env req)].
Proof.
  intros Hflag quiet report sync. subst quiet report sync.
  rewrite !post_update_run. unfold report_events. simpl. rewrite Hflag.
  repeat split.
  - apply fetch_calls_sync.
  - apply writes_sync.
  - change (responses (?a :: ?b :: EvJson ?c :: ?l))
      with (c :: responses l).
    rewrite responses_sync. reflexivity.
Qed.

End HandlerClaims.

(** * The handlers in the concrete world *)

Lemma post_update_window_resolution_witness :
  (falsy (query_arg (fromTime (query (request None None None None)))) = true /\
   falsy (query_arg (toTime (query (request None None None None)))) = true) /\
  (let tr := trace (snd (post_update env_example
                           (request None None None None) state_empty)) in
   find_calls tr = [mkFindOpts 1 "data->>'date' DESC" true] /\
   map (fun c => fst (fst c)) (fetch_calls tr) = [TNumber 1704153600000] /\
   map (fun c => snd (fst c)) (fetch_calls tr) = [TNumber 1706745600000]) /\
  (let tr := trace (snd (post_update env_later
                           (request (Some "1704067200000")
                                    (Some "1704240000000") None None)
                           state_empty)) in
   find_calls tr = [] /\
   map (fun c => fst (fst c)) (fetch_calls tr) = [TString "1704067200000"] /\
   map (fun c => snd (fst c)) (fetch_calls tr) = [TString "1704240000000"]).
Proof.
  split; [split; reflexivity|]. split.
  - destruct (post_update_window_resolution env_example
                (request None None None None) ∅) as (Hfrom & _ & Hto & _).
    destruct (Hfrom eq_refl) as [Hfind Hfetch].
    split; [exact Hfind|]. split; [exact Hfetch|]. exact (Hto eq_refl).
  - destruct (post_update_window_resolution env_later
                (request (Some "1704067200000") (Some "1704240000000")
                         None None) ∅) as (_ & Hfrom & _ & Hto).
    destruct (Hfrom eq_refl) as [Hfind Hfetch].
    split; [exact Hfind|]. split; [exact Hfetch|]. exact (Hto eq_refl).
Defined.


Lemma post_update_report_then_sync_witness :
  newUsageReport (query (request None None (Some "true") None)) = Some "true" /\
  responses
    (trace (snd (post_update env_example
                   (request None None (Some "true") None) state_empty)))
  = [BReport tt; BRows [row_a; row_b; row_a_late]] /\
  writes
    (trace (snd (post_update env_example
                   (request None None (Some "true") None) state_empty)))
  = [mkDoc "usage" row_a; mkDoc "usage" row_b; mkDoc "usage" row_a_late].
Proof.
  split; [reflexivity|].
  destruct (post_update_report_then_sync env_example
              (request None None (Some "true") None) state_empty eq_refl)
    as (Htrace & _ & _ & _ & Hwrites & Hresp).
  rewrite Htrace. split.
  - exact Hresp.
  - rewrite app_nil_l, writes_app. exact Hwrites.
Defined.

(** * More of the calculators

    Division and multiplication of binary64 numbers, as far as the
    percentage needs them. *)

Module DivFacts.
Import SpecFacts FloatFacts.

Section Rounding.
Variables prec emax : Z.

Lemma SFdiv_core_nonneg (m1 e1 m2 e2 : Z) :
  0 <= m1 -> 0 < m2 ->
  0 <= fst (fst (SFdiv_core_binary prec emax m1 e1 m2 e2)).
Proof.
  intros H1 H2. unfold SFdiv_core_binary.
  set (s := _ - _ - Z.min _ _).
  set (m' := match s with Z0 => m1 | Zpos _ => Z.shiftl m1 s | Zneg _ => 0 end).
  assert (Hm : 0 <= m').
  { subst m'. destruct s; [exact H1| |lia]. apply Z.shiftl_nonneg, H1. }
  destruct (Z.div_eucl m' m2) as [q r] eqn:E. simpl.
  assert (Hq : q = m' / m2) by (unfold Z.div; rewrite E; reflexivity).
  rewrite Hq. apply Z.div_pos; assumption.
Qed.

(** A finite number divided by a number other than zero is a number. *)
Lemma SFdiv_finite_not_nan (x y : spec_float) :
  SFfinite x = true -> y <> S754_nan ->
  (forall s, y <> S754_zero s) ->
  SFdiv prec emax x y <> S754_nan.
Proof.
  intros Hx Hy Hz.
  destruct x as [sx|sx| |sx mx ex]; try discriminate Hx;
    destruct y as [sy|sy| |sy my ey]; try congruence; simpl;
    try discriminate; try (exfalso; exact (Hz sy eq_refl)).
  pose proof (SFdiv_core_nonneg (Z.pos mx) ex (Z.pos my) ey) as H.
  destruct (SFdiv_core_binary prec emax (Z.pos mx) ex (Z.pos my) ey)
    as [[mz ez] lz].
  apply binary_round_aux_not_nan. apply H; lia.
Qed.

(** A number times a finite number other than zero is a number. *)
Lemma SFmul_finite_not_nan (x : spec_float) (sy : bool) (my : positive)
    (ey : Z) :
  x <> S754_nan -> SFmul prec emax x (S754_finite sy my ey) <> S754_nan.
Proof.
  intros Hx. destruct x as [sx|sx| |sx mx ex]; try congruence; simpl;
    try discriminate.
  apply binary_round_aux_not_nan. lia.
Qed.

(** Zero divided by a number other than zero is zero. *)
Lemma SFdiv_zero (s : bool) (y : spec_float) :
  y <> S754_nan -> (forall s', y <> S754_zero s') ->
  exists s', SFdiv prec emax (S754_zero s) y = S754_zero s'.
Proof.
  intros Hy Hz. destruct y as [sy|sy| |sy my ey]; simpl.
  - exfalso. exact (Hz sy eq_refl).
  - eexists; reflexivity.
  - congruence.
  - eexists; reflexivity.
Qed.

End Rounding.

Local Open Scope float_scope.

Lemma Prim2SF_100 : exists m e, Prim2SF 100 = S754_finite false m e.
Proof. eexists; eexists; reflexivity. Qed.

(** [l =? 0] tells whether [l] is a zero. *)
Lemma eqb_zero_false (l : float) :
  (l =? 0) = false -> forall s, Prim2SF l <> S754_zero s.
Proof.
  rewrite FloatAxioms.eqb_spec, Prim2SF_zero. unfold SFeqb.
  intros H s E. rewrite E in H. simpl in H. discriminate H.
Qed.

(** [(x / l) * 100] is a number when [x] is finite and [l] is a number
    other than zero. *)
Lemma ratio_is_number (x l : float) :
  is_finite x = true -> is_nan l = false -> (l =? 0) = false ->
  is_nan (x / l * 100) = false.
Proof.
  intros Hx Hl Hz. apply is_nan_false.
  rewrite FloatAxioms.mul_spec, FloatAxioms.div_spec.
  destruct Prim2SF_100 as (m & e & ->).
  apply SFmul_finite_not_nan, SFdiv_finite_not_nan.
  - apply is_finite_SFfinite, Hx.
  - apply is_nan_false, Hl.
  - apply eqb_zero_false, Hz.
Qed.

(** [(z / l) * 100] is a zero when [z] is a zero and [l] is a number other
    than zero. *)
Lemma ratio_of_zero (z l : float) :
  (z =? 0) = true -> is_nan l = false -> (l =? 0) = false ->
  (z / l * 100 =? 0) = true.
Proof.
  intros Hzero Hl Hz.
  assert (Hs : exists s, Prim2SF z = S754_zero s).
  { destruct (eqb_zero_inv z Hzero) as [->| ->]; eexists; reflexivity. }
  destruct Hs as [s Hs].
  rewrite FloatAxioms.eqb_spec, FloatAxioms.mul_spec, FloatAxioms.div_spec, Hs.
  unfold SF64mul, SF64div.
  destruct (SFdiv_zero prec emax s (Prim2SF l)) as [s' ->].
  - apply is_nan_false, Hl.
  - apply eqb_zero_false, Hz.
  - destruct Prim2SF_100 as (m & e & ->). reflexivity.
Qed.

(** [Math.max] of a zero and [0] is [+0]. *)
Lemma Math_max_0_zero (d : float) : (d =? 0) = true -> Math_max d 0 = 0.
Proof.
  intros H. destruct (eqb_zero_inv d H) as [->| ->]; reflexivity.
Qed.

(** [0 - l] is at most [0] when [l] is at least [0]. *)
Lemma zero_sub_nonpos (z l : float) :
  (z =? 0) = true -> (0 <=? l) = true -> (z - l <=? 0) = true.
Proof.
  intros Hzero Hl.
  assert (Hs : exists s, Prim2SF z = S754_zero s).
  { destruct (eqb_zero_inv z Hzero) as [->| ->]; eexists; reflexivity. }
  destruct Hs as [s Hs].
  revert Hl. rewrite !FloatAxioms.leb_spec, FloatAxioms.sub_spec, Hs, Prim2SF_zero.
  unfold SFleb, SF64sub.
  destruct (Prim2SF l) as [sl|sl| |sl ml el]; simpl; try discriminate.
  - intros _. destruct s, sl; reflexivity.
  - destruct sl; [discriminate|reflexivity].
  - destruct sl; [discriminate|reflexivity].
Qed.

End DivFacts.

Section CalculatorEdges.

Import FloatFacts DivFacts.
Local Open Scope float_scope.

Lemma guard_is_ToBoolean (lim : value) :
  (ToBoolean lim && strict_neq_num lim 0)%bool = ToBoolean lim.
Proof.
  destruct lim as [|l]; [reflexivity|]. simpl. unfold is_zero.
  change PrimFloat.zero with 0.
  destruct (l =? 0), (is_nan l); reflexivity.
Qed.

Lemma ToBoolean_number (l : float) :
  ToBoolean (VNumber l) = true -> is_nan l = false /\ (l =? 0) = false.
Proof.
  simpl. unfold is_zero. change PrimFloat.zero with 0.
  destruct (l =? 0), (is_nan l); simpl; intros H;
    try discriminate H; split; reflexivity.
Qed.

Lemma or_zero_is_number (lim : value) :
  is_nan (ToNumber (JS.or lim (VNumber 0))) = false.
Proof.
  unfold JS.or. destruct (ToBoolean lim) eqn:E; [|reflexivity].
  destruct lim as [|l]; [discriminate E|].
  apply ToBoolean_number in E. apply E.
Qed.

Lemma overage_of_finite (u lim : value) :
  finite_number u -> (0 <=? overage_of u lim) = true.
Proof.
  destruct u as [|x]; [intros []|]. simpl. intros Hx.
  unfold overage_of, JS.sub. simpl ToNumber.
  apply Math_max_0_nonneg, sub_is_number; [exact Hx|].
  apply or_zero_is_number.
Qed.

Lemma percentage_of_finite (u lim : value) :
  finite_number u -> (0 <=? percentage_of u lim) = true.
Proof.
  destruct u as [|x]; [intros []|]. simpl. intros Hx.
  unfold percentage_of. rewrite guard_is_ToBoolean.
  destruct (ToBoolean lim) eqn:E; [|reflexivity].
  destruct lim as [|l]; [discriminate E|].
  apply ToBoolean_number in E. destruct E as [Hn Hz].
  unfold JS.div. simpl ToNumber.
  apply Math_max_0_nonneg, ratio_is_number; assumption.
Qed.

Lemma percentage_of_zero (u lim : value) :
  zero_number u -> percentage_of u lim = 0.
Proof.
  destruct u as [|z]; [intros []|]. simpl. intros Hzero.
  unfold percentage_of. rewrite guard_is_ToBoolean.
  destruct (ToBoolean lim) eqn:E; [|reflexivity].
  destruct lim as [|l]; [discriminate E|].
  apply ToBoolean_number in E. destruct E as [Hn Hz].
  unfold JS.div. simpl ToNumber.
  apply Math_max_0_zero, ratio_of_zero; assumption.
Qed.

Lemma zero_is_finite (z : float) : (z =? 0) = true -> is_finite z = true.
Proof. intros H. destruct (eqb_zero_inv z H) as [->| ->]; reflexivity. Qed.

Lemma overage_of_zero (u lim : value) :
  zero_number u -> nonneg_limit lim -> overage_of u lim = 0.
Proof.
  destruct u as [|z]; [intros []|]. simpl. intros Hzero Hl.
  rewrite overage_of_nullish.
  - destruct lim as [|l]; simpl.
    + rewrite sub_zero_r. apply Math_max_0_zero, Hzero.
    + rewrite Math_max_0.
      rewrite (sub_is_number z l (zero_is_finite z Hzero)
                 (leb_zero_is_number l Hl)).
      rewrite (zero_sub_nonpos z l Hzero Hl). reflexivity.
  - destruct lim as [|l]; [exact I|]. apply leb_zero_is_number, Hl.
Qed.

Lemma percentage_of_undefined (lim : value) :
  percentage_of VUndefined lim = if ToBoolean lim then nan else 0.
Proof.
  unfold percentage_of. rewrite guard_is_ToBoolean.
  destruct (ToBoolean lim); [|reflexivity].
  unfold JS.div. simpl ToNumber. rewrite div_nan_l, mul_nan_l. reflexivity.
Qed.

(** X1: for a usage aggregate whose three metrics are finite numbers,
    every field of the percentage report is a number at least [0], whatever
    the plan is: limits that are absent, zero, negative, infinite or not a
    number included. *)
Theorem getUsagePercentageOfLimit_nonneg
    (product : option Product) (t d s : value) :
  finite_number t -> finite_number d -> finite_number s ->
  let r := getUsagePercentageOfLimit product (Some (mkMetrics t d s)) in
  ((0 <=? TotalUsageMins r) = true /\ is_nan (TotalUsageMins r) = false) /\
  ((0 <=? DeliveryUsageMins r) = true /\ is_nan (DeliveryUsageMins r) = false) /\
  ((0 <=? StorageUsageMins r) = true /\ is_nan (StorageUsageMins r) = false).
Proof.
  intros Ht Hd Hs. simpl.
  pose proof (percentage_of_finite t (transcoding (resolveLimits product)) Ht).
  pose proof (percentage_of_finite d (streaming (resolveLimits product)) Hd).
  pose proof (percentage_of_finite s (storage (resolveLimits product)) Hs).
  repeat split; try assumption; apply leb_zero_is_number; assumption.
Qed.

Lemma getUsagePercentageOfLimit_nonneg_witness :
  (finite_number (num 1200) /\ finite_number (num (-3)) /\
   finite_number (num 0)) /\
  (0 <=? DeliveryUsageMins
           (getUsagePercentageOfLimit plan_example
              (Some (mkMetrics (num 1200) (num (-3)) (num 0))))) = true.
Proof.
  assert (H : finite_number (num 1200) /\ finite_number (num (-3)) /\
              finite_number (num 0)) by (repeat split; reflexivity).
  split; [exact H|]. destruct H as (H1 & H2 & H3).
  exact (proj1 (proj1 (proj2 (getUsagePercentageOfLimit_nonneg plan_example
                                (num 1200) (num (-3)) (num 0) H1 H2 H3)))).
Defined.

(** X2: for a usage aggregate whose three metrics are finite numbers,
    every field of the over-usage report is a number at least [0], whatever
    the plan is; neither the sign of the usage nor the limits matter. *)
Theorem calculateOverUsage_never_negative
    (product : option Product) (t d s : value) :
  finite_number t -> finite_number d -> finite_number s ->
  let r := calculateOverUsage product (Some (mkMetrics t d s)) in
  ((0 <=? TotalUsageMins r) = true /\ is_nan (TotalUsageMins r) = false) /\
  ((0 <=? DeliveryUsageMins r) = true /\ is_nan (DeliveryUsageMins r) = false) /\
  ((0 <=? StorageUsageMins r) = true /\ is_nan (StorageUsageMins r) = false).
Proof.
  intros Ht Hd Hs. simpl.
  pose proof (overage_of_finite t (transcoding (resolveLimits product)) Ht).
  pose proof (overage_of_finite d (streaming (resolveLimits product)) Hd).
  pose proof (overage_of_finite s (storage (resolveLimits product)) Hs).
  repeat split; try assumption; apply leb_zero_is_number; assumption.
Qed.

Lemma calculateOverUsage_never_negative_witness :
  (finite_number (num (-7)) /\ finite_number (num 1500) /\
   finite_number (num 600)) /\
  (0 <=? TotalUsageMins
           (calculateOverUsage
              (Some (mkProduct (Some [mkItem "transcoding" (num (-20))])))
              (Some (mkMetrics (num (-7)) (num 1500) (num 600))))) = true.
Proof.
  assert (H : finite_number (num (-7)) /\ finite_number (num 1500) /\
              finite_number (num 600)) by (repeat split; reflexivity).
  split; [exact H|]. destruct H as (H1 & H2 & H3).
  exact (proj1 (proj1 (calculateOverUsage_never_negative
                         (Some (mkProduct (Some [mkItem "transcoding"
                                                   (num (-20))])))
                         (num (-7)) (num 1500) (num 600) H1 H2 H3))).
Defined.

(** X3: a usage aggregate of zeros gives percentages of exactly [0] under
    every plan, and over-usages of exactly [0] under every plan whose
    limits are at least [0] where present. *)
Theorem zero_usage_reports (product : option Product) (t d s : value) :
  zero_number t -> zero_number d -> zero_number s ->
  getUsagePercentageOfLimit product (Some (mkMetrics t d s))
  = mkMetrics 0 0 0 /\
  (nonneg_limit (transcoding (resolveLimits product)) ->
   nonneg_limit (streaming (resolveLimits product)) ->
   nonneg_limit (storage (resolveLimits product)) ->
   calculateOverUsage product (Some (mkMetrics t d s)) = mkMetrics 0 0 0).
Proof.
  intros Ht Hd Hs. split.
  - unfold getUsagePercentageOfLimit. simpl.
    rewrite !percentage_of_zero by assumption. reflexivity.
  - intros Lt Ld Ls. unfold calculateOverUsage. simpl.
    rewrite !overage_of_zero by assumption. reflexivity.
Qed.

Lemma zero_usage_reports_witness :
  (zero_number (num 0) /\ zero_number (num neg_zero)) /\
  getUsagePercentageOfLimit plan_example
    (Some (mkMetrics (num 0) (num neg_zero) (num 0))) = mkMetrics 0 0 0 /\
  calculateOverUsage plan_example
    (Some (mkMetrics (num 0) (num neg_zero) (num 0))) = mkMetrics 0 0 0.
Proof.
  assert (H : zero_number (num 0) /\ zero_number (num neg_zero))
    by (split; reflexivity).
  split; [exact H|]. destruct H as [H0 Hn].
  destruct (zero_usage_reports plan_example (num 0) (num neg_zero) (num 0)
              H0 Hn H0) as [Hp Ho].
  split; [exact Hp|]. apply Ho; reflexivity.
Defined.

(** X4: with the usage aggregate absent, the percentage of a metric is
    [NaN] when the plan has a limit for it that is a number other than
    zero, and [0] otherwise; the guard on the limit does not guard the
    usage. *)
Theorem getUsagePercentageOfLimit_missing_usage (product : option Product) :
  let limits := resolveLimits product in
  getUsagePercentageOfLimit product None =
  mkMetrics (if ToBoolean (transcoding limits) then nan else 0)
            (if ToBoolean (streaming limits) then nan else 0)
            (if ToBoolean (storage limits) then nan else 0).
Proof.
  unfold getUsagePercentageOfLimit. simpl.
  rewrite !percentage_of_undefined. reflexivity.
Qed.

End CalculatorEdges.

(** * More of the controller *)

Section ControllerEdges.

Context {Report : Type}.

Implicit Types (env : Env Report) (req : Request) (s : State Report).
Implicit Types (st : gmap string Doc) (rows : list UsageRow).

Import FloatFacts DivFacts.

Lemma append_inj_r (p a b : string) : (p ++ a = p ++ b)%string -> a = b.
Proof.
  induction p as [|c p IH]; simpl; intros H; [exact H|].
  injection H as H. apply IH, H.
Qed.

Lemma usage_key_inj (r r' : UsageRow) :
  usage_key r = usage_key r' -> id r = id r'.
Proof. unfold usage_key. apply append_inj_r. Qed.

Lemma find_some_key rows (k : string) (r : UsageRow) :
  find (fun r => String.eqb (usage_key r) k) rows = Some r ->
  In r rows /\ usage_key r = k.
Proof.
  intros H. apply find_some in H. destruct H as [Hin Hk].
  split; [exact Hin|]. apply String.eqb_eq, Hk.
Qed.

Lemma find_none_key rows (k : string) :
  find (fun r => String.eqb (usage_key r) k) rows = None ->
  forall r, In r rows -> usage_key r <> k.
Proof.
  intros H r Hin. apply (find_none _ _ H) in Hin.
  apply String.eqb_neq, Hin.
Qed.

Lemma NoDup_ids_eq rows (r r' : UsageRow) :
  NoDup (map id rows) -> In r rows -> In r' rows -> id r = id r' -> r = r'.
Proof.
  induction rows as [|a rows IH]; [intros _ []|].
  simpl. intros Hnd Hr Hr' Hid. apply NoDup_cons in Hnd as [Hna Hnd].
  destruct Hr as [->|Hr], Hr' as [->|Hr'].
  - reflexivity.
  - exfalso. apply Hna. rewrite Hid.
    apply list_elem_of_In, in_map, Hr'.
  - exfalso. apply Hna. rewrite <- Hid.
    apply list_elem_of_In, in_map, Hr.
  - apply IH; assumption.
Qed.

(** X5: [getUsageData] throws, leaving cache and trace as they were, when
    there is no ingest; with an ingest it makes one metering call, at the
    origin of the first ingest and for the billing cycle, leaves the cache
    as it was and returns that usage with the two reports computed on it
    under the user's plan; when the three metrics returned are finite
    numbers, every figure of the two reports is at least [0]. *)
Theorem getUsageData_outcome env (products : gmap string Product)
    (user : User) (cycleStart cycleEnd : Z) (ingests : list string)
    (adminToken : string) s :
  (ingests = [] ->
   exists e, getUsageData env products user cycleStart cycleEnd ingests
               adminToken s = (Threw e, s)) /\
  (forall (origin : string) (rest : list string),
     ingests = origin :: rest ->
     let u := metering env origin (TNumber cycleStart) (TNumber cycleEnd)
                (user_id user) adminToken in
     let plan := product_of products user in
     getUsageData env products user cycleStart cycleEnd ingests adminToken s
     = (Ok (mkUsageData u (calculateOverUsage plan u)
              (getUsagePercentageOfLimit plan u)),
        mkState (store s)
          (trace s ++ [EvFetchUsage origin (TNumber cycleStart)
                         (TNumber cycleEnd) (user_id user) adminToken])) /\
     (forall t d m : value,
        u = Some (mkMetrics t d m) ->
        finite_number t -> finite_number d -> finite_number m ->
        let o := calculateOverUsage plan u in
        let p := getUsagePercentageOfLimit plan u in
        (0 <=? TotalUsageMins o)%float = true /\
        (0 <=? DeliveryUsageMins o)%float = true /\
        (0 <=? StorageUsageMins o)%float = true /\
        (0 <=? TotalUsageMins p)%float = true /\
        (0 <=? DeliveryUsageMins p)%float = true /\
        (0 <=? StorageUsageMins p)%float = true)).
Proof.
  split.
  - intros ->. eexists. reflexivity.
  - intros origin rest -> u plan. split; [reflexivity|].
    intros t d m Hu Ht Hd Hm o p. subst o p. rewrite Hu.
    unfold calculateOverUsage, getUsagePercentageOfLimit. simpl.
    repeat split;
      first [apply overage_of_finite|apply percentage_of_finite]; assumption.
Qed.

(** X6: a user whose product is not in the [products] table, or who has
    none, is reported [0] percent on every metric, whatever the usage is,
    and an over-usage of [Math.max(usage, 0)] on every metric that is a
    number. *)
Theorem no_plan_reports (products : gmap string Product) (user : User)
    (u : Usage) :
  product_of products user = None ->
  getUsagePercentageOfLimit (product_of products user) u
  = mkMetrics 0%float 0%float 0%float /\
  (forall t d m : float,
     u = Some (mkMetrics (VNumber t) (VNumber d) (VNumber m)) ->
     calculateOverUsage (product_of products user) u
     = mkMetrics (Math_max t 0) (Math_max d 0) (Math_max m 0)).
Proof.
  intros ->. split; [reflexivity|].
  intros t d m ->. unfold calculateOverUsage. simpl.
  rewrite !overage_of_no_limit. reflexivity.
Qed.

(** X7: [GET /user/overage] answers [400] with the error body, without
    looking anything up, when [userId] is missing.  With a [userId] it
    throws after the user lookup alone when the user is unknown, and after
    the ingest lookup when there is no ingest, in both cases without
    calling the metering service and without writing a response.  With a
    known user and an ingest it calls the metering service once, at the
    origin of the first ingest and for the window of the request, sets the
    status and calls [res.json] with the two reports computed on that usage
    under the user's plan, and ends as that call ends.  In no case does it
    call the metering service more than once. *)
Theorem get_user_overage_outcome env (db_user_get : string -> option User)
    (products : gmap string Product)
    (json_call : Metrics float -> Metrics float -> outcome unit) req :
  let run := get_user_overage env db_user_get products json_call req in
  let uid := default "" (userId (query req)) in
  let w := default_window env (query_arg (fromTime (query req)))
                          (query_arg (toTime (query req))) in
  (falsy (query_arg (userId (query req))) = true ->
   run = (Ok tt, [OvStatus 400; OvJsonError "userId is required"])) /\
  (falsy (query_arg (userId (query req))) = false ->
   db_user_get uid = None ->
   run = (Threw ("user not found: " ++ uid)%string, [OvUserGet uid])) /\
  (falsy (query_arg (userId (query req))) = false ->
   forall user, db_user_get uid = Some user ->
   getIngest env = [] ->
   (exists e, fst run = Threw e) /\
   snd run = [OvUserGet uid; OvGetIngest]) /\
  (falsy (query_arg (userId (query req))) = false ->
   forall user origin rest, db_user_get uid = Some user ->
   getIngest env = origin :: rest ->
   let usage := metering env origin w.1 w.2 uid (token req) in
   let overage := calculateOverUsage (product_of products user) usage in
   let percentages :=
     getUsagePercentageOfLimit (product_of products user) usage in
   fst run = json_call overage percentages /\
   snd run = [OvUserGet uid; OvGetIngest;
              OvFetchUsage origin w.1 w.2 uid (token req);
              OvStatus 200; OvJson overage percentages]) /\
  (length (ov_fetches (snd run)) <= 1)%nat /\
  (ov_written (snd run) = [] \/
   ov_written (snd run) = [OvStatus 400; OvJsonError "userId is required"] \/
   exists o p, ov_written (snd run) = [OvStatus 200; OvJson o p] /\
               length (ov_fetches (snd run)) = 1%nat).
Proof.
  cbv zeta. unfold get_user_overage.
  destruct (default_window env _ _) as [from to] eqn:Hw. simpl fst. simpl snd.
  destruct (falsy (query_arg (userId (query req)))) eqn:Hu.
  - split; [reflexivity|]. split; [discriminate|]. split; [discriminate|].
    split; [discriminate|]. split; [simpl; lia|]. right. left. reflexivity.
  - split; [discriminate|].
    destruct (db_user_get (default "" (userId (query req)))) as [user|] eqn:Hg.
    + destruct (getIngest env) as [|origin rest] eqn:Hi.
      * split; [discriminate|]. split.
        { intros _ user' _ _. split; [eexists; reflexivity|reflexivity]. }
        split; [discriminate|]. split; [simpl; lia|]. left. reflexivity.
      * split; [discriminate|]. split; [discriminate|]. split.
        { intros _ user' origin' rest' [= <-] [= <- <-].
          split; reflexivity. }
        split; [simpl; lia|]. right. right.
        eexists. eexists. split; reflexivity.
    + split; [reflexivity|]. split; [discriminate|]. split; [discriminate|].
      split; [simpl; lia|]. left. reflexivity.
Qed.

End ControllerEdges.

Section SyncEdges.

Context {Report : Type}.

Implicit Types (env : Env Report) (req : Request) (s : State Report).
Implicit Types (st : gmap string Doc) (rows : list UsageRow).

Lemma gets_app (a b : list (event Report)) :
  gets (a ++ b) = gets a ++ gets b.
Proof. apply omap_app. Qed.

Lemma gets_upsert rows : forall st,
  gets (@upsert_events Report rows st) = map usage_key rows.
Proof.
  induction rows as [|r rows IH]; intros st; [reflexivity|].
  simpl. destruct (st !! _); simpl; f_equal; apply IH.
Qed.

Lemma guarded_upsert rows (tl : list (event Report)) : forall st,
  guarded st (@upsert_events Report rows st ++ tl)
  = guarded (upserted rows st) tl.
Proof.
  induction rows as [|r rows IH]; intros st; [reflexivity|].
  cbn [upsert_events app guarded].
  destruct (st !! usage_key r) as [d|] eqn:E; cbn [guarded];
    change (doc_key (mkDoc "usage" r)) with (usage_key r); rewrite E.
  - rewrite bool_decide_true by (eexists; reflexivity). simpl. apply IH.
  - rewrite bool_decide_true by reflexivity. simpl. apply IH.
Qed.

Lemma upserted_other rows st (k : string) :
  (forall r, In r rows -> usage_key r <> k) ->
  upserted rows st !! k = st !! k.
Proof.
  intros H. rewrite upserted_lookup.
  destruct (find _ (rev rows)) as [r|] eqn:E; [|reflexivity].
  apply find_some_key in E. destruct E as [Hin Hk].
  exfalso. apply (H r); [apply in_rev, Hin|exact Hk].
Qed.

Lemma upserted_fetched rows st (r : UsageRow) :
  In r rows ->
  exists r', In r' rows /\ id r' = id r /\
             upserted rows st !! usage_key r = Some (mkDoc "usage" r').
Proof.
  intros Hin. rewrite upserted_lookup.
  destruct (find _ (rev rows)) as [r'|] eqn:E.
  - apply find_some_key in E. destruct E as [Hin' Hk].
    exists r'. split; [apply in_rev, Hin'|]. split; [|reflexivity].
    apply usage_key_inj, Hk.
  - exfalso. apply (find_none_key _ _ E r); [apply in_rev|reflexivity].
    rewrite rev_involutive. exact Hin.
Qed.

(** X8: the sync never removes an entry of the cache and leaves alone
    every entry whose key is not that of a fetched period; when nothing is
    fetched the cache is left as it was and nothing is written. *)
Theorem post_update_keeps_other_entries env req s :
  let after := store (snd (post_update env req s)) in
  (forall k : string,
     (forall r, In r (fetched env req) -> usage_key r <> k) ->
     after !! k = store s !! k) /\
  (forall k : string, is_Some (store s !! k) -> is_Some (after !! k)) /\
  (fetched env req = [] ->
   after = store s /\
   writes (sync_events env req (store s)) = []).
Proof.
  cbv zeta. rewrite post_update_run. simpl store.
  split; [|split].
  - intros k H. apply upserted_other, H.
  - intros k Hk. rewrite upserted_lookup.
    destruct (find _ _); [eexists; reflexivity|exact Hk].
  - intros E. rewrite writes_sync, E. split; reflexivity.
Qed.

(** X9: after the sync every fetched period can be read back from the cache
    under [usage/<id>]: the entry holds a fetched record of that period, of
    kind ["usage"], and when the fetched periods have distinct ids it holds
    the very record fetched. *)
Theorem post_update_stores_fetched env req s :
  let after := store (snd (post_update env req s)) in
  (forall r, In r (fetched env req) ->
     exists r', In r' (fetched env req) /\ id r' = id r /\
                after !! usage_key r = Some (mkDoc "usage" r')) /\
  (NoDup (map id (fetched env req)) ->
   forall r, In r (fetched env req) ->
     after !! usage_key r = Some (mkDoc "usage" r)).
Proof.
  cbv zeta. rewrite post_update_run. simpl store. split.
  - intros r Hin. apply upserted_fetched, Hin.
  - intros Hnd r Hin.
    destruct (upserted_fetched (fetched env req) (store s) r Hin)
      as (r' & Hin' & Hid & Hl).
    rewrite Hl. f_equal. f_equal.
    apply (NoDup_ids_eq (fetched env req)); assumption.
Qed.

Lemma gets_sync env req st :
  gets (sync_events env req st) = map usage_key (fetched env req).
Proof.
  unfold sync_events. rewrite !gets_app, gets_upsert.
  destruct (falsy _); simpl; rewrite app_nil_r; reflexivity.
Qed.

Lemma guarded_sync env req st : guarded st (sync_events env req st) = true.
Proof.
  unfold sync_events.
  destruct (falsy _); cbn [app guarded]; rewrite guarded_upsert; reflexivity.
Qed.

Lemma guarded_report env req st (tl : list (event Report)) :
  guarded st (report_events env req ++ tl) = guarded st tl.
Proof. unfold report_events. destruct (strict_eq_str _ _); reflexivity. Qed.

Lemma gets_report env req : gets (report_events env req) = [].
Proof. unfold report_events. destruct (strict_eq_str _ _); reflexivity. Qed.

Lemma writes_report env req : writes (report_events env req) = [].
Proof. unfold report_events. destruct (strict_eq_str _ _); reflexivity. Qed.

(** X10: in one run of the sync every fetched row is looked up once, in the
    order fetched, and the guard of the loop holds at every write: [replace]
    is only called on a key that has an entry at that moment and [create]
    only on a key that has none, a period that comes twice being created
    and then replaced. *)
Theorem post_update_guarded env req s :
  let new := report_events env req ++ sync_events env req (store s) in
  trace (snd (post_update env req s)) = trace s ++ new /\
  guarded (store s) new = true /\
  gets new = map usage_key (fetched env req) /\
  writes new = map (mkDoc "usage") (fetched env req).
Proof.
  cbv zeta. rewrite post_update_run. simpl trace.
  split; [reflexivity|].
  rewrite guarded_report, guarded_sync, gets_app, writes_app, gets_report,
    writes_report, gets_sync, writes_sync.
  repeat split.
Qed.

(** X11: the GET handlers never write to the cache.  [GET /] always
    completes with one response.  [GET /user] answers with the error body,
    and asks nothing of the metering service, when [userId] is missing; it
    throws before any metering call and before any response when there is
    no ingest. *)
Theorem get_handlers_read_only env req s :
  store (snd (get_root env req s)) = store s /\
  store (snd (get_user env req s)) = store s /\
  fst (get_root env req s) = Ok tt /\
  (exists b, responses (trace (snd (get_root env req (mkState (store s) []))))
             = [b]) /\
  (falsy (query_arg (userId (query req))) = true ->
   fst (get_user env req s) = Ok tt /\
   responses (trace (snd (get_user env req (mkState (store s) []))))
   = [BError "userId is required"] /\
   metering_calls (trace (snd (get_user env req (mkState (store s) []))))
   = []) /\
  (falsy (query_arg (userId (query req))) = false ->
   getIngest env = [] ->
   (exists e, fst (get_user env req s) = Threw e) /\
   responses (trace (snd (get_user env req (mkState (store s) [])))) = [] /\
   metering_calls (trace (snd (get_user env req (mkState (store s) []))))
   = []).
Proof.
  rewrite !get_root_run. cbv zeta. simpl.
  assert (Hstore : store (snd (get_user env req s)) = store s).
  { unfold get_user. destruct (default_window _ _ _) as [f t].
    destruct (falsy (query_arg (userId (query req)))); [reflexivity|].
    unfold bind, emit. simpl. destruct (getIngest env); reflexivity. }
  split; [reflexivity|]. split; [exact Hstore|]. split; [reflexivity|].
  split; [eexists; reflexivity|]. split.
  - intros Hu. unfold get_user. destruct (default_window _ _ _) as [f t].
    rewrite Hu. repeat split.
  - intros Hu Hi. unfold get_user. destruct (default_window _ _ _) as [f t].
    rewrite Hu, Hi. repeat split. eexists. reflexivity.
Qed.

End SyncEdges.

(** * More of the controller in the concrete world *)

Lemma post_update_keeps_other_entries_witness :
  (forall r, In r (fetched env_example (request None None None None)) ->
             usage_key r <> "usage/2023-12-31") /\
  store (snd (post_update env_example (request None None None None)
                (mkState {[ "usage/2023-12-31" :=
                              mkDoc "usage" (mkRow "2023-12-31" 1703980800000
                                               1 2 3) ]} [])))
  !! "usage/2023-12-31"
  = Some (mkDoc "usage" (mkRow "2023-12-31" 1703980800000 1 2 3)).
Proof.
  assert (H : forall r, In r (fetched env_example
                                (request None None None None)) ->
                        usage_key r <> "usage/2023-12-31").
  { intros r [<-|[<-|[<-|[]]]]; discriminate. }
  split; [exact H|].
  rewrite (proj1 (post_update_keeps_other_entries env_example
                    (request None None None None) _) _ H).
  reflexivity.
Defined.

Lemma getUsageData_outcome_witness :
  (["https://origin.example"; "https://other.example"]
   = "https://origin.example" :: ["https://other.example"] /\
   usage_example = Some (mkMetrics (num 1200) (num 1500) (num 600)) /\
   finite_number (num 1200) /\ finite_number (num 1500) /\
   finite_number (num 600)) /\
  (exists e, getUsageData env_example products_example
               (mkUser "user-1" (Some "prod_pro")) 1704067200000 1706745600000
               [] "admin-token" state_empty = (Threw e, state_empty)) /\
  metering_calls
    (trace (snd (getUsageData env_example products_example
                   (mkUser "user-1" (Some "prod_pro"))
                   1704067200000 1706745600000
                   ["https://origin.example"; "https://other.example"]
                   "admin-token" state_empty)))
  = [(TNumber 1704067200000, TNumber 1706745600000)] /\
  (0 <=? TotalUsageMins
           (calculateOverUsage
              (product_of products_example (mkUser "user-1" (Some "prod_pro")))
              usage_example))%float = true.
Proof.
  split; [repeat split; reflexivity|].
  destruct (getUsageData_outcome env_example products_example
              (mkUser "user-1" (Some "prod_pro")) 1704067200000 1706745600000
              [] "admin-token" state_empty) as [Hthrow _].
  split; [exact (Hthrow eq_refl)|].
  destruct (getUsageData_outcome env_example products_example
              (mkUser "user-1" (Some "prod_pro")) 1704067200000 1706745600000
              ["https://origin.example"; "https://other.example"]
              "admin-token" state_empty) as [_ Hrun].
  destruct (Hrun _ _ eq_refl) as [Heq Hnonneg].
  split; [rewrite Heq; reflexivity|].
  refine (proj1 (Hnonneg (num 1200) (num 1500) (num 600) eq_refl _ _ _));
    reflexivity.
Defined.

Lemma no_plan_reports_witness :
  product_of products_example (mkUser "user-2" None) = None /\
  getUsagePercentageOfLimit
    (product_of products_example (mkUser "user-2" None)) usage_example
  = mkMetrics 0%float 0%float 0%float /\
  calculateOverUsage
    (product_of products_example (mkUser "user-2" None)) usage_example
  = mkMetrics (Math_max 1200 0) (Math_max 1500 0) (Math_max 600 0).
Proof.
  assert (H : product_of products_example (mkUser "user-2" None) = None)
    by reflexivity.
  split; [exact H|].
  destruct (no_plan_reports products_example (mkUser "user-2" None)
              usage_example H) as [Hp Ho].
  split; [exact Hp|]. exact (Ho _ _ _ eq_refl).
Defined.

Lemma get_user_overage_outcome_witness :
  (falsy (query_arg (userId (query (request None None None None)))) = true /\
   falsy (query_arg (userId (query (request None None None
                                              (Some "nobody"))))) = false /\
   users_example "nobody" = None /\
   falsy (query_arg (userId (query (request None None None
                                              (Some "user-1"))))) = false /\
   users_example "user-1" = Some (mkUser "user-1" (Some "prod_pro")) /\
   getIngest env_no_ingest = [] /\
   getIngest env_example = "https://origin.example" :: []) /\
  get_user_overage env_example users_example products_example
    (fun _ _ => Ok tt) (request None None None None)
  = (Ok tt, [OvStatus 400; OvJsonError "userId is required"]) /\
  get_user_overage env_example users_example products_example
    (fun _ _ => Ok tt) (request None None None (Some "nobody"))
  = (Threw "user not found: nobody", [OvUserGet "nobody"]) /\
  snd (get_user_overage env_no_ingest users_example products_example
         (fun _ _ => Ok tt) (request None None None (Some "user-1")))
  = [OvUserGet "user-1"; OvGetIngest] /\
  fst (get_user_overage env_example users_example products_example
         (fun _ _ => Threw "ERR_HTTP_INVALID_STATUS_CODE")
         (request None None None (Some "user-1")))
  = Threw "ERR_HTTP_INVALID_STATUS_CODE".
Proof.
  split; [repeat split; reflexivity|]. split; [|split; [|split]].
  - destruct (get_user_overage_outcome env_example users_example
                products_example (fun _ _ => Ok tt)
                (request None None None None)) as (H & _).
    exact (H eq_refl).
  - destruct (get_user_overage_outcome env_example users_example
                products_example (fun _ _ => Ok tt)
                (request None None None (Some "nobody"))) as (_ & H & _).
    exact (H eq_refl eq_refl).
  - destruct (get_user_overage_outcome env_no_ingest users_example
                products_example (fun _ _ => Ok tt)
                (request None None None (Some "user-1")))
      as (_ & _ & H & _).
    exact (proj2 (H eq_refl _ eq_refl eq_refl)).
  - destruct (get_user_overage_outcome env_example users_example
                products_example
                (fun _ _ => Threw "ERR_HTTP_INVALID_STATUS_CODE")
                (request None None None (Some "user-1")))
      as (_ & _ & _ & H & _).
    exact (proj1 (H eq_refl _ _ _ eq_refl eq_refl)).
Defined.

Lemma post_update_stores_fetched_witness :
  (NoDup (map id (fetched env_distinct (request None None None None))) /\
   In row_b (fetched env_distinct (request None None None None))) /\
  store (snd (post_update env_distinct (request None None None None)
                state_empty)) !! usage_key row_b
  = Some (mkDoc "usage" row_b).
Proof.
  assert (Hin : In row_b (fetched env_distinct (request None None None None)))
    by (right; left; reflexivity).
  assert (Hnd : NoDup (map id (fetched env_distinct
                                 (request None None None None)))).
  { apply (bool_decide_unpack _). vm_compute. exact I. }
  split; [exact (conj Hnd Hin)|].
  exact (proj2 (post_update_stores_fetched env_distinct
                  (request None None None None) state_empty) Hnd row_b Hin).
Defined.

Lemma get_handlers_read_only_witness :
  (falsy (query_arg (userId (query (request None None None None)))) = true) /\
  responses
    (trace (snd (get_user env_example (request None None None None)
                   (mkState (store state_empty) []))))
  = [BError "userId is required"].
Proof.
  split; [reflexivity|].
  destruct (get_handlers_read_only env_example (request None None None None)
              state_empty) as (_ & _ & _ & _ & H & _).
  exact (proj1 (proj2 (H eq_refl))).
Defined.

(** * Properties of the blog index page *)

Section SortFacts.

Context {A : Type}.
Variable comparefn : A -> A -> Z.

Lemma sort_insert_perm (x : A) (l : list A) :
  Permutation (sort_insert comparefn x l) (x :: l).
Proof.
  induction l as [|y l IH]; simpl; [reflexivity|].
  destruct (comparefn x y <=? 0); [reflexivity|].
  rewrite IH. apply perm_swap.
Qed.

Lemma Array_sort_perm (l : list A) : Permutation (Array_sort comparefn l) l.
Proof.
  induction l as [|x l IH]; simpl; [reflexivity|].
  rewrite sort_insert_perm, IH. reflexivity.
Qed.

Lemma find_split (f : A -> bool) (l : list A) (p : A) :
  find f l = Some p ->
  exists pre suf, l = pre ++ p :: suf /\ f p = true /\
                  Forall (fun q => f q = false) pre.
Proof.
  induction l as [|y l IH]; simpl; [discriminate|].
  destruct (f y) eqn:E.
  - intros [= ->]. exists [], l. repeat split; [exact E|constructor].
  - intros H. destruct (IH H) as (pre & suf & -> & Hp & Hpre).
    exists (y :: pre), suf. repeat split; [exact Hp|].
    constructor; assumption.
Qed.

Lemma hd_map_filter {B : Type} (g : A -> B) (f : A -> bool) (l : list A) :
  hd_error (map g (List.filter f l)) = option_map g (find f l).
Proof.
  induction l as [|y l IH]; simpl; [reflexivity|].
  destruct (f y); [reflexivity|exact IH].
Qed.

End SortFacts.

Section BlogFacts.

Lemma sort_insert_newest_first (x : Post) (l : list Post) :
  newest_first l -> newest_first (sort_insert by_date_desc x l).
Proof.
  unfold newest_first.
  induction l as [|y l IH]; simpl; intros Hs.
  - constructor; constructor.
  - apply StronglySorted_inv in Hs. destruct Hs as [Hl Hy].
    unfold by_date_desc at 1.
    destruct (publishedDate y - publishedDate x <=? 0) eqn:E.
    + apply Z.leb_le in E. constructor.
      * constructor; assumption.
      * constructor; [lia|].
        eapply Forall_impl; [exact Hy|]. simpl. intros z Hz. lia.
    + apply Z.leb_gt in E. constructor; [apply IH, Hl|].
      apply Forall_forall. intros z Hz. apply list_elem_of_In in Hz.
      apply (Permutation_in _ (sort_insert_perm by_date_desc x l)) in Hz.
      destruct Hz as [<-|Hz]; [lia|].
      rewrite Forall_forall in Hy. apply Hy, list_elem_of_In, Hz.
Qed.

Lemma sorted_posts_newest_first (posts : list Post) :
  newest_first (sorted_posts posts).
Proof.
  unfold sorted_posts. induction posts as [|x l IH]; simpl.
  - constructor.
  - apply sort_insert_newest_first, IH.
Qed.

Lemma sorted_posts_perm (posts : list Post) :
  Permutation (sorted_posts posts) posts.
Proof. apply Array_sort_perm. Qed.

Lemma sorted_posts_In (posts : list Post) (p : Post) :
  In p (sorted_posts posts) <-> In p posts.
Proof.
  split; apply Permutation_in;
    [apply sorted_posts_perm|symmetry; apply sorted_posts_perm].
Qed.

Lemma newest_first_after (pre suf : list Post) (p : Post) :
  newest_first (pre ++ p :: suf) ->
  forall q, In q suf -> publishedDate q <= publishedDate p.
Proof.
  unfold newest_first. induction pre as [|y pre IH]; simpl; intros Hs.
  - apply StronglySorted_inv in Hs. destruct Hs as [_ Hp].
    rewrite Forall_forall in Hp. intros q Hq.
    apply Hp, list_elem_of_In, Hq.
  - apply StronglySorted_inv in Hs. apply IH, Hs.
Qed.

Lemma grid_ok (f : Post) (l : list Post) :
  grid (Some f) l =
  Ok (map (fun p => mkCard p (String.eqb (post_id p) (post_id f))) l).
Proof.
  induction l as [|p l IH]; simpl; [reflexivity|]. rewrite IH. reflexivity.
Qed.

Lemma featuredPost_nonempty (posts : list Post) :
  posts <> [] -> exists f, featuredPost posts = Some f /\ In f posts.
Proof.
  intros Hne. unfold featuredPost.
  destruct (find featured (sorted_posts posts)) as [p|] eqn:E.
  - exists p. split; [reflexivity|].
    apply find_some in E. apply sorted_posts_In, E.
  - destruct (sorted_posts posts) as [|p l] eqn:Es.
    + exfalso. apply Hne. apply Permutation_nil.
      rewrite <- Es. apply sorted_posts_perm.
    + exists p. split; [reflexivity|].
      apply sorted_posts_In. rewrite Es. left. reflexivity.
Qed.

(** X12: the featured post is the most recent of the posts marked as
    featured; when no post is marked it is the most recent post of all;
    it is [undefined] only when there are no posts. *)
Theorem featuredPost_most_recent (posts : list Post) :
  (posts = [] -> featuredPost posts = None) /\
  (posts <> [] ->
   exists p, featuredPost posts = Some p /\ In p posts /\
     ((exists q, In q posts /\ featured q = true) ->
      featured p = true /\
      forall q, In q posts -> featured q = true ->
                publishedDate q <= publishedDate p) /\
     ((forall q, In q posts -> featured q = false) ->
      forall q, In q posts -> publishedDate q <= publishedDate p)).
Proof.
  split; [intros ->; reflexivity|]. intros Hne.
  destruct (featuredPost_nonempty posts Hne) as (p & Hp & Hin).
  exists p. split; [exact Hp|]. split; [exact Hin|].
  unfold featuredPost in Hp.
  pose proof (sorted_posts_newest_first posts) as Hs.
  destruct (find featured (sorted_posts posts)) as [p'|] eqn:E.
  - injection Hp as ->.
    destruct (find_split _ _ _ E) as (pre & suf & Hl & Hf & Hpre).
    split.
    + intros _. split; [exact Hf|]. intros q Hq Hfq.
      apply sorted_posts_In in Hq. rewrite Hl in Hq, Hs.
      apply in_app_or in Hq. destruct Hq as [Hq|[<-|Hq]].
      * rewrite Forall_forall in Hpre.
        apply list_elem_of_In, Hpre in Hq. congruence.
      * lia.
      * apply (newest_first_after pre suf p Hs q Hq).
    + intros Hnone. specialize (Hnone p Hin). congruence.
  - split.
    + intros (q & Hq & Hfq). apply sorted_posts_In in Hq.
      apply (find_none _ _ E) in Hq. congruence.
    + intros _ q Hq. apply sorted_posts_In in Hq.
      destruct (sorted_posts posts) as [|p' l]; [discriminate Hp|].
      injection Hp as ->. destruct Hq as [<-|Hq]; [lia|].
      apply (newest_first_after [] l p Hs q Hq).
Qed.

Lemma featuredPost_most_recent_witness :
  posts_example <> [] /\
  (exists q, In q posts_example /\ featured q = true) /\
  exists p, featuredPost posts_example = Some p /\ featured p = true.
Proof.
  assert (Hne : posts_example <> []) by discriminate.
  assert (Hq : exists q, In q posts_example /\ featured q = true)
    by (eexists; split; [left; reflexivity|reflexivity]).
  split; [exact Hne|]. split; [exact Hq|].
  destruct (proj2 (featuredPost_most_recent posts_example) Hne)
    as (p & Hp & _ & Hf & _).
  exists p. split; [exact Hp|]. exact (proj1 (Hf Hq)).
Defined.

(** X13: the component never throws on reading [featuredPost._id].  Out of
    fallback it renders one card per post, the posts newest first (the sort
    reorders the array the grid is drawn from), and gives the responsive
    [display] to exactly the cards whose [_id] is that of the featured
    post; in fallback it renders the loading page. *)
Theorem BlogIndex_view (metaData : Meta) (router : Router)
    (categories : list Category) (posts : list Post) :
  (isFallback router = true ->
   BlogIndex metaData router categories posts = Ok Loading) /\
  (isFallback router = false ->
   exists cards,
     BlogIndex metaData router categories posts
     = Ok (Page (seoData metaData router categories) cards) /\
     Permutation (map card_post cards) posts /\
     newest_first (map card_post cards) /\
     forall c, In c cards ->
       (card_responsive c = true <->
        exists f, featuredPost posts = Some f /\
                  post_id (card_post c) = post_id f)).
Proof.
  unfold BlogIndex. split; intros ->; [reflexivity|].
  destruct posts as [|p0 l] eqn:Hposts.
  - exists []. split; [reflexivity|]. split; [constructor|].
    split; [constructor|]. intros c [].
  - rewrite <- Hposts.
    destruct (featuredPost_nonempty posts) as (f & Hf & _);
      [rewrite Hposts; discriminate|].
    rewrite Hf, grid_ok. eexists. split; [reflexivity|].
    rewrite map_map. simpl. rewrite map_id.
    split; [apply sorted_posts_perm|].
    split; [apply sorted_posts_newest_first|].
    intros c Hc. apply in_map_iff in Hc. destruct Hc as (p & <- & _). simpl.
    rewrite String.eqb_eq. split.
    + intros H. exists f. split; [reflexivity|exact H].
    + intros (f' & [= <-] & H). exact H.
Qed.

Lemma BlogIndex_view_witness :
  isFallback (mkRouter false None "/blog") = false /\
  exists cards,
    BlogIndex (mkMeta "Blog" "News" "/blog") (mkRouter false None "/blog")
      [] posts_example
    = Ok (Page (Some (mkMeta "Blog" "News" "/blog")) cards) /\
    newest_first (map card_post cards).
Proof.
  split; [reflexivity|].
  destruct (proj2 (BlogIndex_view (mkMeta "Blog" "News" "/blog")
                     (mkRouter false None "/blog") [] posts_example)
              eq_refl) as (cards & Heq & _ & Hs & _).
  exists cards. split; [exact Heq|exact Hs].
Defined.

(** X14: the metadata of the page is that of the blog on the path
    ["/blog"], whatever the categories are; on any other path it is built
    from the first category whose slug is the one of the route, later
    categories with that slug being ignored, and it is [undefined] when no
    category has that slug or the route has none. *)
Theorem seoData_first_match (metaData : Meta) (router : Router)
    (categories : list Category) :
  (asPath router = "/blog" ->
   seoData metaData router categories = Some metaData) /\
  (asPath router <> "/blog" ->
   seoData metaData router categories =
   match find (fun c => strict_eq_str (slug router) (slug_current c))
              categories with
   | Some c => Some (mkMeta (metaTitle c) (metaDescription c) (metaUrl c))
   | None => None
   end) /\
  (asPath router <> "/blog" ->
   (slug router = None \/
    forall c, In c categories -> Some (slug_current c) <> slug router) ->
   seoData metaData router categories = None).
Proof.
  unfold seoData. split; [|split].
  - intros ->. reflexivity.
  - intros H. apply String.eqb_neq in H. rewrite H, hd_map_filter.
    destruct (find _ categories); reflexivity.
  - intros H Hno. apply String.eqb_neq in H. rewrite H, hd_map_filter.
    destruct (find _ categories) as [c|] eqn:E; [|reflexivity].
    exfalso. apply find_some in E. destruct E as [Hin Hc].
    destruct Hno as [Hs|Hs].
    + rewrite Hs in Hc. discriminate Hc.
    + apply (Hs c Hin). destruct (slug router) as [x|]; [|discriminate Hc].
      simpl in Hc. apply String.eqb_eq in Hc. congruence.
Qed.

Lemma seoData_first_match_witness :
  (asPath (mkRouter false (Some "guides") "/blog/category/guides") <> "/blog") /\
  seoData (mkMeta "Blog" "News" "/blog")
    (mkRouter false (Some "guides") "/blog/category/guides")
    [ mkCategory "news" "News" "All news" "/blog/category/news";
      mkCategory "guides" "Guides" "How to" "/blog/category/guides";
      mkCategory "guides" "Other" "Shadowed" "/blog/category/other" ]
  = Some (mkMeta "Guides" "How to" "/blog/category/guides").
Proof.
  assert (H : asPath (mkRouter false (Some "guides") "/blog/category/guides")
              <> "/blog") by discriminate.
  split; [exact H|].
  destruct (seoData_first_match (mkMeta "Blog" "News" "/blog")
              (mkRouter false (Some "guides") "/blog/category/guides")
              [ mkCategory "news" "News" "All news" "/blog/category/news";
                mkCategory "guides" "Guides" "How to" "/blog/category/guides";
                mkCategory "guides" "Other" "Shadowed" "/blog/category/other" ])
    as (_ & Hfind & _).
  rewrite (Hfind H). reflexivity.
Defined.

Lemma find_sort_insert (x : Post) (l : list Post) :
  newest_first l ->
  find featured (sort_insert by_date_desc x l) =
  if featured x then
    match find featured l with
    | Some q => if publishedDate q <=? publishedDate x then Some x else Some q
    | None => Some x
    end
  else find featured l.
Proof.
  unfold newest_first.
  induction l as [|y l IH]; intros Hs.
  - simpl. destruct (featured x); reflexivity.
  - apply StronglySorted_inv in Hs. destruct Hs as [Hl Hy].
    cbn [sort_insert]. unfold by_date_desc at 1.
    destruct (publishedDate y - publishedDate x <=? 0) eqn:E.
    + apply Z.leb_le in E. cbn [find].
      destruct (featured x) eqn:Fx; [|reflexivity].
      destruct (featured y) eqn:Fy.
      * assert (Hle : (publishedDate y <=? publishedDate x) = true)
          by (apply Z.leb_le; lia).
        rewrite Hle. reflexivity.
      * destruct (find featured l) as [q|] eqn:Fq; [|reflexivity].
        apply find_some in Fq. destruct Fq as [Hq _].
        rewrite Forall_forall in Hy.
        apply list_elem_of_In, Hy in Hq.
        assert (Hle : (publishedDate q <=? publishedDate x) = true)
          by (apply Z.leb_le; lia).
        rewrite Hle. reflexivity.
    + apply Z.leb_gt in E. cbn [find].
      destruct (featured y) eqn:Fy.
      * assert (Hgt : (publishedDate y <=? publishedDate x) = false)
          by (apply Z.leb_gt; lia).
        rewrite Hgt. destruct (featured x); reflexivity.
      * apply IH, Hl.
Qed.

Lemma find_sorted_latest (posts : list Post) :
  find featured (sorted_posts posts) = latest featured posts.
Proof.
  induction posts as [|x l IH]; [reflexivity|].
  unfold sorted_posts. cbn [Array_sort latest].
  rewrite find_sort_insert by apply sorted_posts_newest_first.
  fold (sorted_posts l). rewrite IH. reflexivity.
Qed.

Lemma hd_sorted_latest (posts : list Post) :
  hd_error (sorted_posts posts) = latest (fun _ => true) posts.
Proof.
  induction posts as [|x l IH]; [reflexivity|].
  unfold sorted_posts. cbn [Array_sort latest].
  fold (sorted_posts l). rewrite <- IH.
  destruct (sorted_posts l) as [|y r]; [reflexivity|].
  cbn [sort_insert hd_error]. unfold by_date_desc.
  destruct (publishedDate y - publishedDate x <=? 0) eqn:E.
  - apply Z.leb_le in E.
    assert (Hle : (publishedDate y <=? publishedDate x) = true)
      by (apply Z.leb_le; lia).
    rewrite Hle. reflexivity.
  - apply Z.leb_gt in E.
    assert (Hgt : (publishedDate y <=? publishedDate x) = false)
      by (apply Z.leb_gt; lia).
    rewrite Hgt. reflexivity.
Qed.

(** X18: sorting the posts and taking the first featured one, or the first
    one, comes to one pass over the array as received: the featured post
    is the latest featured post, or the latest post when none is featured,
    and of posts of the same date the one that comes first in the array as
    received wins, the sort being stable. *)
Theorem featuredPost_scan (posts : list Post) :
  featuredPost posts =
  match latest featured posts with
  | Some p => Some p
  | None => latest (fun _ => true) posts
  end.
Proof.
  unfold featuredPost. rewrite find_sorted_latest, hd_sorted_latest.
  reflexivity.
Qed.

End BlogFacts.

(** * Properties of the test player page *)

Section RegexFacts.

Lemma dead_not_nullable (r : regex) : dead r = true -> nullable r = false.
Proof.
  induction r as [| |cls|a IHa b IHb|a IHa b IHb|a IHa]; simpl;
    try discriminate; try reflexivity.
  - intros H. apply orb_true_iff in H. destruct H as [H|H].
    + rewrite (IHa H). reflexivity.
    + rewrite (IHb H). apply andb_false_r.
  - intros H. apply andb_true_iff in H. destruct H as [Ha Hb].
    rewrite (IHa Ha), (IHb Hb). reflexivity.
Qed.

Lemma dead_deriv (c : ascii) (r : regex) :
  dead r = true -> dead (deriv c r) = true.
Proof.
  induction r as [| |cls|a IHa b IHb|a IHa b IHb|a IHa]; simpl;
    try discriminate; try reflexivity.
  - intros H. apply orb_true_iff in H. destruct H as [H|H].
    + rewrite (dead_not_nullable a H). simpl. rewrite (IHa H). reflexivity.
    + destruct (nullable a); simpl; rewrite H, ?(IHb H), ?orb_true_r;
        reflexivity.
  - intros H. apply andb_true_iff in H. destruct H as [Ha Hb].
    rewrite (IHa Ha), (IHb Hb). reflexivity.
Qed.

Lemma dead_matches (s : string) : forall r,
  dead r = true -> matches r s = false.
Proof.
  induction s as [|c s IH]; intros r H; simpl.
  - apply dead_not_nullable, H.
  - apply IH, dead_deriv, H.
Qed.

Lemma classes_within_deriv (P : ascii -> bool) (c : ascii) (r : regex) :
  classes_within P r -> classes_within P (deriv c r).
Proof.
  induction r as [| |cls|a IHa b IHb|a IHa b IHb|a IHa]; simpl; auto.
  - intros _. destruct (cls c); exact I.
  - intros [Ha Hb]. destruct (nullable a); simpl; auto.
  - intros [Ha Hb]. auto.
Qed.

Lemma deriv_outside (P : ascii -> bool) (c : ascii) (r : regex) :
  classes_within P r -> P c = false -> dead (deriv c r) = true.
Proof.
  intros Hr Hc.
  induction r as [| |cls|a IHa b IHb|a IHa b IHb|a IHa]; simpl in *;
    try reflexivity.
  - destruct (cls c) eqn:E; [|reflexivity].
    apply Hr in E. congruence.
  - destruct Hr as [Ha Hb]. destruct (nullable a); simpl;
      rewrite (IHa Ha), ?(IHb Hb); reflexivity.
  - destruct Hr as [Ha Hb]. rewrite (IHa Ha), (IHb Hb). reflexivity.
  - rewrite (IHa Hr). reflexivity.
Qed.

(** A string matched by an expression is made of characters of its
    classes. *)
Lemma matches_within (P : ascii -> bool) (s : string) : forall r,
  classes_within P r -> matches r s = true ->
  forall c, In c (list_ascii_of_string s) -> P c = true.
Proof.
  induction s as [|a s IH]; intros r Hr Hm c Hc; simpl in *; [destruct Hc|].
  destruct (P a) eqn:Ea.
  - destruct Hc as [<-|Hc]; [exact Ea|].
    apply (IH (deriv a r)); [apply classes_within_deriv, Hr|exact Hm|exact Hc].
  - rewrite (dead_matches s _ (deriv_outside P a r Hr Ea)) in Hm.
    discriminate Hm.
Qed.

Lemma all_ascii (f : ascii -> bool) :
  forallb f (map ascii_of_nat (seq 0 256)) = true -> forall c, f c = true.
Proof.
  intros H c. rewrite forallb_forall in H. apply H.
  rewrite <- (ascii_nat_embedding c). apply in_map, in_seq.
  pose proof (nat_ascii_bounded c). lia.
Qed.

Lemma class_within (cls P : ascii -> bool) :
  forallb (fun c => implb (cls c) (P c)) (map ascii_of_nat (seq 0 256)) = true ->
  forall c, cls c = true -> P c = true.
Proof.
  intros H c Hc. pose proof (all_ascii _ H c) as Hi. simpl in Hi.
  rewrite Hc in Hi. exact Hi.
Qed.

Lemma url_pattern_classes : classes_within url_char url_pattern.
Proof.
  unfold url_pattern, RSeqs, ROpt, RPlus, digits_1_3, lit. simpl.
  repeat split; apply class_within; vm_compute; reflexivity.
Qed.

End RegexFacts.

Section SplitFacts.

Lemma split_on_nonempty (sep : ascii) (s : string) : split_on sep s <> [].
Proof.
  destruct s as [|c s]; simpl; [discriminate|].
  destruct (Ascii.eqb c sep); [discriminate|].
  destruct (split_on sep s); discriminate.
Qed.

Lemma concat_cons (sep x : string) (l : list string) :
  l <> [] ->
  String.concat sep (x :: l) = (x ++ sep ++ String.concat sep l)%string.
Proof. destruct l; [congruence|reflexivity]. Qed.

(** Joining the segments gives the string back. *)
Lemma join_split (s : string) : String.concat "/" (split_on "/" s) = s.
Proof.
  induction s as [|c s IH]; [reflexivity|]. simpl.
  destruct (Ascii.eqb c "/") eqn:E.
  - apply Ascii.eqb_eq in E. subst c.
    rewrite concat_cons by apply split_on_nonempty. rewrite IH. reflexivity.
  - pose proof (split_on_nonempty "/" s) as Hne.
    destruct (split_on "/" s) as [|seg segs]; [congruence|].
    destruct segs as [|seg' segs].
    + simpl in *. rewrite IH. reflexivity.
    + rewrite concat_cons by discriminate.
      rewrite concat_cons in IH by discriminate.
      rewrite <- IH. reflexivity.
Qed.

Lemma length_split (s : string) :
  length (split_on "/" s) = S (slashes s).
Proof.
  induction s as [|c s IH]; [reflexivity|]. simpl.
  destruct (Ascii.eqb c "/").
  - simpl. rewrite IH. reflexivity.
  - pose proof (split_on_nonempty "/" s) as Hne.
    destruct (split_on "/" s) as [|seg segs]; [congruence|].
    simpl in *. exact IH.
Qed.

Lemma split_slash_free_app (x rest : string) :
  slash_free x ->
  split_on "/" (x ++ String "/" rest) = x :: split_on "/" rest.
Proof.
  unfold slash_free. induction x as [|c x IH]; simpl; intros H.
  - reflexivity.
  - apply Forall_cons in H. destruct H as [Hc Hx].
    apply Ascii.eqb_neq in Hc. rewrite Hc, (IH Hx). reflexivity.
Qed.

Lemma split_slash_free (x : string) : slash_free x -> split_on "/" x = [x].
Proof.
  unfold slash_free. induction x as [|c x IH]; simpl; intros H.
  - reflexivity.
  - apply Forall_cons in H. destruct H as [Hc Hx].
    apply Ascii.eqb_neq in Hc. rewrite Hc, (IH Hx). reflexivity.
Qed.

(** Splitting a join of segments without [/] gives the segments back. *)
Lemma split_join (segs : list string) :
  segs <> [] -> Forall slash_free segs ->
  split_on "/" (String.concat "/" segs) = segs.
Proof.
  induction segs as [|x segs IH]; [congruence|]. intros _ H.
  apply Forall_cons in H. destruct H as [Hx Hsegs].
  destruct segs as [|y segs].
  - simpl. apply split_slash_free, Hx.
  - rewrite concat_cons by discriminate.
    change ("/" ++ String.concat "/" (y :: segs))%string
      with (String "/" (String.concat "/" (y :: segs))).
    rewrite (split_slash_free_app x _ Hx), IH; [reflexivity|discriminate|].
    exact Hsegs.
Qed.

(** X15: the playback id is the fifth of the segments the value has
    between its slashes: it is [undefined] exactly when the value has fewer
    than four slashes, as a URL written without its scheme has, and for a
    value joined from segments without slash, [scheme:], the empty segment,
    host, directory, id and what follows, it is the id.  The test of the
    pattern does not rule the first case out. *)
Theorem playbackId_segment :
  (forall id : string, playbackId id = None <-> (slashes id < 4)%nat) /\
  (forall id : string, String.concat "/" (split_on "/" id) = id) /\
  (forall segs : list string,
     segs <> [] -> Forall slash_free segs ->
     playbackId (String.concat "/" segs) = nth_error segs 4) /\
  (exists value : string,
     pattern_test value = true /\ playbackId value = None).
Proof.
  split; [|split; [|split]].
  - intros id. unfold playbackId. rewrite nth_error_None, length_split. lia.
  - apply join_split.
  - intros segs Hne Hs. unfold playbackId. rewrite split_join by assumption.
    reflexivity.
  - exists "fra-cdn.livepeer.com/hls/123456abcdef7890/index.m3u8".
    split; vm_compute; reflexivity.
Qed.

Lemma playbackId_segment_witness :
  (["https:"; ""; "fra-cdn.livepeer.com"; "hls"; "123456abcdef7890";
    "index.m3u8"] <> [] /\
   Forall slash_free
     ["https:"; ""; "fra-cdn.livepeer.com"; "hls"; "123456abcdef7890";
      "index.m3u8"]) /\
  playbackId "https://fra-cdn.livepeer.com/hls/123456abcdef7890/index.m3u8"
  = Some "123456abcdef7890".
Proof.
  assert (Hne : ["https:"; ""; "fra-cdn.livepeer.com"; "hls";
                 "123456abcdef7890"; "index.m3u8"] <> []) by discriminate.
  assert (Hs : Forall slash_free
                 ["https:"; ""; "fra-cdn.livepeer.com"; "hls";
                  "123456abcdef7890"; "index.m3u8"]).
  { repeat constructor; discriminate. }
  split; [exact (conj Hne Hs)|].
  exact (proj1 (proj2 (proj2 playbackId_segment)) _ Hne Hs).
Defined.

End SplitFacts.

Section PlayerFacts.

Variable getStreamInfo : option string -> option RInfo.

(** X16: a value that is empty, or that holds a character other than a
    letter, a digit or one of [:/.-%_~+?;&=#] (a space, a quote, an angle
    bracket), fails the test of the pattern: [handleChange] then clears the
    manifest URL, the message and the stream info, whatever they were and
    whatever the stream service would answer. *)
Theorem handleChange_rejects_foreign_characters
    (value : string) (st : PlayerState) :
  value = "" \/
  (exists c, In c (list_ascii_of_string value) /\ url_char c = false) ->
  pattern_test value = false /\
  handleChange getStreamInfo value st = mkPlayerState "" "" (loading st) None.
Proof.
  intros H.
  assert (Ht : pattern_test value = false).
  { destruct H as [->|(c & Hc & Hu)]; [reflexivity|].
    destruct (pattern_test value) eqn:E; [|reflexivity].
    pose proof (matches_within url_char value url_pattern
                  url_pattern_classes E c Hc) as Hin.
    congruence. }
  split; [exact Ht|]. unfold handleChange. rewrite Ht. reflexivity.
Qed.

Lemma player_inv_init : player_inv getStreamInfo player_init.
Proof.
  unfold player_inv, player_init. simpl.
  repeat split; auto; discriminate.
Qed.

Lemma pattern_test_nonempty (value : string) :
  pattern_test value = true -> value <> "".
Proof. intros H ->. discriminate H. Qed.

Lemma player_inv_step (value : string) (st : PlayerState) :
  player_inv getStreamInfo st ->
  player_inv getStreamInfo (handleChange getStreamInfo value st).
Proof.
  intros (Hl & Hm & Hu & Hi). unfold handleChange.
  destruct (pattern_test value) eqn:Ht.
  - unfold doGetInfo. simpl.
    destruct (getStreamInfo (playbackId value)) as [r|] eqn:Hg;
      [destruct (isSession r) as [b|] eqn:Hs;
       [destruct (stream r) as [x|] eqn:Hx|]|];
      unfold player_inv; simpl;
      (split; [reflexivity|]); (split; [auto|]); (split; [auto|]);
      intros r' Hr'; try discriminate Hr'.
    injection Hr' as <-. rewrite Hs, Hx.
    split; [eexists; reflexivity|]. split; [eexists; reflexivity|].
    split; [exact Hg|]. split; [reflexivity|].
    apply pattern_test_nonempty, Ht.
  - unfold player_inv; simpl.
    split; [exact Hl|]. split; [auto|]. split; [auto|].
    intros r' Hr'. discriminate Hr'.
Qed.

Lemma player_inv_run (values : list string) : forall st,
  player_inv getStreamInfo st ->
  player_inv getStreamInfo (after_changes getStreamInfo values st).
Proof.
  induction values as [|v values IH]; intros st H; [exact H|].
  simpl. apply IH, player_inv_step, H.
Qed.

(** X17: whatever values the input takes in turn and whatever the stream
    service answers, between two changes the component is not loading, its
    message is empty or "Not found", its manifest URL is empty or passes
    the test of the pattern, and a stream info is held only together with
    an empty message and the manifest URL it was looked up for, and only if
    it has a session flag and a stream; so the check mark shows exactly
    when a stream info is held. *)
Theorem player_invariant (values : list string) :
  let st := after_changes getStreamInfo values player_init in
  loading st = false /\
  (message st = "" \/ message st = "Not found") /\
  (manifestUrl st = "" \/ pattern_test (manifestUrl st) = true) /\
  (forall r, info st = Some r ->
     is_Some (isSession r) /\ is_Some (stream r) /\
     getStreamInfo (playbackId (manifestUrl st)) = Some r /\
     message st = "" /\ manifestUrl st <> "") /\
  (shows_checked st = true <-> is_Some (info st)).
Proof.
  cbv zeta.
  pose proof (player_inv_run values player_init player_inv_init) as Hinv.
  destruct Hinv as (Hl & Hm & Hu & Hi).
  split; [exact Hl|]. split; [exact Hm|]. split; [exact Hu|].
  split; [exact Hi|]. unfold shows_checked. split.
  - intros Hc. apply andb_true_iff in Hc. destruct Hc as [_ Hc].
    destruct (info _); [eexists; reflexivity|discriminate Hc].
  - intros [r Hr]. rewrite Hr.
    destruct (Hi r Hr) as (_ & _ & _ & -> & _). reflexivity.
Qed.

End PlayerFacts.

Lemma handleChange_rejects_foreign_characters_witness :
  (exists c, In c (list_ascii_of_string "https://exa mple.com/hls/x") /\
             url_char c = false) /\
  handleChange stream_service "https://exa mple.com/hls/x"
    (mkPlayerState "Not found" "https://example.com" false None)
  = mkPlayerState "" "" false None.
Proof.
  assert (H : exists c, In c (list_ascii_of_string "https://exa mple.com/hls/x")
                        /\ url_char c = false).
  { exists " "%char. split; [|reflexivity].
    do 11 right. left. reflexivity. }
  split; [exact H|].
  exact (proj2 (handleChange_rejects_foreign_characters stream_service
                  "https://exa mple.com/hls/x"
                  (mkPlayerState "Not found" "https://example.com" false None)
                  (or_intror H))).
Defined.


Lemma player_invariant_witness :
  let st := after_changes stream_service
              ["fra-cdn.livepeer.com";
               "https://fra-cdn.livepeer.com/hls/123456abcdef7890/index.m3u8"]
              player_init in
  info st = Some (mkRInfo (Some true) (Some "stream") (Some "profiles")) /\
  message st = "" /\
  shows_checked st = true.
Proof.
  cbv zeta.
  assert (Hinfo : info (after_changes stream_service
                          ["fra-cdn.livepeer.com";
                           "https://fra-cdn.livepeer.com/hls/123456abcdef7890/index.m3u8"]
                          player_init)
                  = Some (mkRInfo (Some true) (Some "stream") (Some "profiles")))
    by (vm_compute; reflexivity).
  destruct (player_invariant stream_service
              ["fra-cdn.livepeer.com";
               "https://fra-cdn.livepeer.com/hls/123456abcdef7890/index.m3u8"])
    as (_ & _ & _ & Hi & Hc).
  split; [exact Hinfo|].
  split; [exact (proj1 (proj2 (proj2 (proj2 (Hi _ Hinfo)))))|].
  apply Hc. rewrite Hinfo. eexists; reflexivity.
Defined.


(** * Over-usage of metrics that are at least zero *)

Module SubFacts.
Import SpecFacts FloatFacts.

Section Rounding.
Variables prec emax : Z.

(** The difference of two numbers is a number, unless they are the same
    infinity. *)
Lemma SFsub_not_nan (x y : spec_float) :
  x <> S754_nan -> y <> S754_nan ->
  (forall s, ~ (x = S754_infinity s /\ y = S754_infinity s)) ->
  SFsub prec emax x y <> S754_nan.
Proof.
  intros Hx Hy Hinf.
  destruct x as [sx|sx| |sx mx ex]; try congruence;
    destruct y as [sy|sy| |sy my ey]; try congruence; simpl;
    try discriminate.
  - destruct sx, sy; discriminate.
  - destruct sx, sy; try discriminate.
    + exfalso. apply (Hinf true). split; reflexivity.
    + exfalso. apply (Hinf false). split; reflexivity.
  - apply binary_normalize_not_nan.
Qed.

End Rounding.

Local Open Scope float_scope.

Lemma sub_is_number_unless (x y : float) :
  is_nan x = false -> is_nan y = false ->
  ~ (x = infinity /\ y = infinity) ->
  ~ (x = neg_infinity /\ y = neg_infinity) ->
  is_nan (x - y) = false.
Proof.
  intros Hx Hy Hp Hn. apply is_nan_false. rewrite FloatAxioms.sub_spec.
  apply SFsub_not_nan.
  - apply is_nan_false, Hx.
  - apply is_nan_false, Hy.
  - intros s [Ex Ey]. destruct s.
    + apply Hn. split; apply Prim2SF_inj;
        rewrite Prim2SF_neg_infinity; assumption.
    + apply Hp. split; apply Prim2SF_inj;
        rewrite Prim2SF_infinity; assumption.
Qed.

Lemma leb_zero_not_neg_infinity (x : float) :
  (0 <=? x) = true -> x <> neg_infinity.
Proof. intros H ->. vm_compute in H. discriminate H. Qed.

Lemma zero_not_infinity : (0 : float) <> infinity.
Proof.
  intros H. apply (f_equal (fun z => z =? 0)) in H. vm_compute in H.
  discriminate H.
Qed.

Lemma overage_of_at_least_zero (u lim : value) :
  at_least_zero u -> nonneg_limit lim -> ~ both_infinite u lim ->
  (0 <=? overage_of u lim) = true /\
  overage_of u lim = Math_max (ToNumber u - nullish lim 0) 0.
Proof.
  destruct u as [|x]; [intros []|]. simpl at_least_zero. intros Hx Hl Hinf.
  assert (Hn : match lim with VUndefined => True
                         | VNumber l => is_nan l = false end).
  { destruct lim as [|l]; [exact I|]. apply leb_zero_is_number, Hl. }
  rewrite (overage_of_nullish x lim Hn). split; [|reflexivity].
  apply Math_max_0_nonneg, sub_is_number_unless.
  - apply leb_zero_is_number, Hx.
  - destruct lim as [|l]; [reflexivity|exact Hn].
  - intros [Ex El]. destruct lim as [|l]; simpl in El.
    + exact (zero_not_infinity El).
    + apply Hinf. split; congruence.
  - intros [Ex _]. exact (leb_zero_not_neg_infinity x Hx Ex).
Qed.

End SubFacts.

Section OverageAtLeastZero.

Import SubFacts.
Local Open Scope float_scope.

(** C8, as stated: with the usage of the total and its limit both
    [+Infinity], every metric value and every present limit is at least
    [0], and the over-usage of the total is [NaN], which is not at least
    [0]. *)
Lemma infinite_usage_and_limit_give_NaN :
  let product :=
    Some (mkProduct (Some [mkItem "transcoding" (num infinity)])) in
  let usage := Some (mkMetrics (num infinity) (num 0) (num 0)) in
  (at_least_zero (num infinity) /\ at_least_zero (num 0)) /\
  (nonneg_limit (transcoding (resolveLimits product)) /\
   nonneg_limit (streaming (resolveLimits product)) /\
   nonneg_limit (storage (resolveLimits product))) /\
  is_nan (TotalUsageMins (calculateOverUsage product usage)) = true /\
  (0 <=? TotalUsageMins (calculateOverUsage product usage)) = false.
Proof.
  cbv zeta. split; [split; reflexivity|].
  split; [repeat split; reflexivity|].
  split; vm_compute; reflexivity.
Qed.

(** C8, amended: for a usage aggregate whose three metrics are numbers at
    least [0] and resolved limits that are at least [0] where present,
    and provided no metric has both its usage and its limit equal to
    [+Infinity], every field of the over-usage report is at least [0] and
    equals [Math.max(usage - (limit ?? 0), 0)]. *)
Theorem calculateOverUsage_nonneg
    (product : option Product) (t d s : value) :
  at_least_zero t -> at_least_zero d -> at_least_zero s ->
  nonneg_limit (transcoding (resolveLimits product)) ->
  nonneg_limit (streaming (resolveLimits product)) ->
  nonneg_limit (storage (resolveLimits product)) ->
  ~ both_infinite t (transcoding (resolveLimits product)) ->
  ~ both_infinite d (streaming (resolveLimits product)) ->
  ~ both_infinite s (storage (resolveLimits product)) ->
  let limits := resolveLimits product in
  let r := calculateOverUsage product (Some (mkMetrics t d s)) in
  ((0 <=? TotalUsageMins r) = true /\
   TotalUsageMins r
   = Math_max (ToNumber t - nullish (transcoding limits) 0) 0) /\
  ((0 <=? DeliveryUsageMins r) = true /\
   DeliveryUsageMins r
   = Math_max (ToNumber d - nullish (streaming limits) 0) 0) /\
  ((0 <=? StorageUsageMins r) = true /\
   StorageUsageMins r
   = Math_max (ToNumber s - nullish (storage limits) 0) 0).
Proof.
  intros Ht Hd Hs Lt Ld Ls It Id Is. simpl.
  repeat apply conj; try (apply overage_of_at_least_zero; assumption).
Qed.

Lemma calculateOverUsage_nonneg_witness :
  (at_least_zero (num infinity) /\ at_least_zero (num 1500) /\
   at_least_zero (num 600)) /\
  (nonneg_limit (transcoding (resolveLimits plan_example)) /\
   nonneg_limit (streaming (resolveLimits plan_example)) /\
   nonneg_limit (storage (resolveLimits plan_example))) /\
  (~ both_infinite (num infinity) (transcoding (resolveLimits plan_example)) /\
   ~ both_infinite (num 1500) (streaming (resolveLimits plan_example)) /\
   ~ both_infinite (num 600) (storage (resolveLimits plan_example))) /\
  (0 <=? TotalUsageMins
           (calculateOverUsage plan_example
              (Some (mkMetrics (num infinity) (num 1500) (num 600)))))
  = true.
Proof.
  assert (Hu : at_least_zero (num infinity) /\ at_least_zero (num 1500) /\
               at_least_zero (num 600))
    by (repeat split; reflexivity).
  assert (Hl : nonneg_limit (transcoding (resolveLimits plan_example)) /\
               nonneg_limit (streaming (resolveLimits plan_example)) /\
               nonneg_limit (storage (resolveLimits plan_example)))
    by (repeat split; reflexivity).
  assert (Hi : ~ both_infinite (num infinity)
                   (transcoding (resolveLimits plan_example)) /\
               ~ both_infinite (num 1500)
                   (streaming (resolveLimits plan_example)) /\
               ~ both_infinite (num 600)
                   (storage (resolveLimits plan_example))).
  { repeat split; intros [Ha Hb].
    - apply (f_equal (fun v => (ToNumber v =? 1000)%float)) in Hb.
      vm_compute in Hb. discriminate Hb.
    - apply (f_equal (fun v => (ToNumber v =? 1500)%float)) in Ha.
      vm_compute in Ha. discriminate Ha.
    - apply (f_equal (fun v => (ToNumber v =? 600)%float)) in Ha.
      vm_compute in Ha. discriminate Ha. }
  split; [exact Hu|]. split; [exact Hl|]. split; [exact Hi|].
  destruct Hu as (H1 & H2 & H3). destruct Hl as (L1 & L2 & L3).
  destruct Hi as (I1 & I2 & I3).
  exact (proj1 (proj1 (calculateOverUsage_nonneg plan_example
                         (num infinity) (num 1500) (num 600)
                         H1 H2 H3 L1 L2 L3 I1 I2 I3))).
Defined.

End OverageAtLeastZero.


(** * Idempotence of the sync *)

Section SyncIdempotence.

Context {Report : Type}.

Implicit Types (env : Env Report) (req : Request) (s : State Report).
Implicit Types (st : gmap string Doc) (rows : list UsageRow).

Lemma creates_app (a b : list (event Report)) :
  creates (a ++ b) = creates a ++ creates b.
Proof. apply omap_app. Qed.

Lemma creates_report env req : creates (report_events env req) = [].
Proof. unfold report_events. destruct (strict_eq_str _ _); reflexivity. Qed.

Lemma creates_upsert_present rows : forall st,
  (forall r, In r rows -> is_Some (st !! usage_key r)) ->
  creates (@upsert_events Report rows st) = [].
Proof.
  induction rows as [|r rows IH]; intros st H; [reflexivity|].
  cbn [upsert_events]. destruct (H r (or_introl eq_refl)) as [d Hd].
  rewrite Hd. cbn [creates omap]. apply IH. intros r' Hr'.
  destruct (decide (usage_key r = usage_key r')) as [E|E].
  - rewrite E, lookup_insert_eq. eexists; reflexivity.
  - rewrite lookup_insert_ne by exact E. apply H. right. exact Hr'.
Qed.

Lemma creates_sync_present env req st :
  (forall r, In r (fetched env req) -> is_Some (st !! usage_key r)) ->
  creates (sync_events env req st) = [].
Proof.
  intros H. unfold sync_events.
  rewrite !creates_app, (creates_upsert_present _ _ H).
  destruct (falsy _); reflexivity.
Qed.

(** C4: the sync is idempotent on the cache.  A run writes each fetched
    period record as it is, once, under the key of its period, replacing
    the entry when there is one at that moment and creating it otherwise;
    afterwards every key of a fetched period holds the last record fetched
    for it, whole, and every other key holds what it held.  When a second
    run fetches the period records the first run fetched, it writes them
    again, every write a replacement, and leaves the cache as the first
    run left it. *)
Theorem post_update_idempotent env1 env2 req1 req2 s :
  fetched env2 req2 = fetched env1 req1 ->
  let rows := fetched env1 req1 in
  let s1 := snd (post_update env1 req1 s) in
  let s2 := snd (post_update env2 req2 s1) in
  store s2 = store s1 /\
  (forall k : string,
     store s1 !! k =
     match find (fun r => String.eqb (usage_key r) k) (rev rows) with
     | Some r => Some (mkDoc "usage" r)
     | None => store s !! k
     end) /\
  (exists new1,
     trace s1 = trace s ++ new1 /\
     writes new1 = map (mkDoc "usage") rows /\
     guarded (store s) new1 = true) /\
  (exists new2,
     trace s2 = trace s1 ++ new2 /\
     writes new2 = map (mkDoc "usage") rows /\
     guarded (store s1) new2 = true /\
     creates new2 = []).
Proof.
  intros Hsame rows s1 s2. subst rows s1 s2.
  rewrite !post_update_run. cbn [store trace snd].
  rewrite Hsame, upserted_idempotent.
  split; [reflexivity|]. split; [apply upserted_lookup|]. split.
  - eexists. split; [reflexivity|].
    rewrite writes_app, writes_report, writes_sync, guarded_report,
      guarded_sync.
    split; reflexivity.
  - eexists. split; [reflexivity|].
    rewrite writes_app, writes_report, writes_sync, guarded_report,
      guarded_sync, creates_app, creates_report, Hsame.
    split; [reflexivity|]. split; [reflexivity|].
    apply creates_sync_present. rewrite Hsame. intros r Hr.
    destruct (upserted_fetched (fetched env1 req1) (store s) r Hr)
      as (r' & _ & _ & Hl).
    rewrite Hl. eexists; reflexivity.
Qed.

End SyncIdempotence.

Lemma post_update_idempotent_witness :
  fetched env_later (request (Some "1704067200000") None (Some "true") None)
  = fetched env_example (request None None None None) /\
  store (snd (post_update env_later
                (request (Some "1704067200000") None (Some "true") None)
                (snd (post_update env_example (request None None None None)
                        state_empty))))
  = store (snd (post_update env_example (request None None None None)
                  state_empty)) /\
  store (snd (post_update env_example (request None None None None)
                state_empty)) !! "usage/2024-01-01"
  = Some (mkDoc "usage" row_a_late).
Proof.
  split; [reflexivity|].
  destruct (post_update_idempotent env_example env_later
              (request None None None None)
              (request (Some "1704067200000") None (Some "true") None)
              state_empty eq_refl) as (Hsame & Hlookup & _).
  split; [exact Hsame|]. rewrite Hlookup. reflexivity.
Defined.
